(** * doc-hub: keyphrase extraction for API documentation

    A shallow embedding of [extract_keyphrases.py] and the verification of
    its specification.

    Conventions of the embedding.
    - A Python [str] is a [string]; a character is a code point below 256,
      the range in which [str.lower] acts character by character.
    - A Python [int] is a [Z].
    - A Python [dict] is an association list in insertion order with unique
      keys ([dict_set] keeps the position of a key that is already there and
      appends a new one, as CPython does).
    - Code that can raise returns a [result]. *)

From Stdlib Require Import List ZArith QArith Lia Bool Ascii String.
From Stdlib Require Import Permutation Sorted OrderedTypeEx DecimalString.
Import ListNotations.

Local Open Scope string_scope.
Local Open Scope Z_scope.

(** ** Python strings *)

Module PyStr.

(** [str.isspace] on one code point below 256: the characters removed by
    [str.strip] and matched by the regular expression class [\s]. *)
Definition is_space (c : ascii) : bool :=
  let n := N_of_ascii c in
  ((9 <=? n) && (n <=? 13) || (28 <=? n) && (n <=? 32)
   || (n =? 133) || (n =? 160))%N.

(** [str.lower] on one code point below 256. *)
Definition lower_char (c : ascii) : ascii :=
  let n := N_of_ascii c in
  if ((65 <=? n) && (n <=? 90)
      || (192 <=? n) && (n <=? 222) && negb (n =? 215))%N
  then ascii_of_N (n + 32) else c.

(** [s.lower()] *)
Fixpoint lower (s : string) : string :=
  match s with
  | EmptyString => EmptyString
  | String c rest => String (lower_char c) (lower rest)
  end.

(** [s.lstrip()] *)
Fixpoint lstrip (s : string) : string :=
  match s with
  | EmptyString => EmptyString
  | String c rest => if is_space c then lstrip rest else s
  end.

(** [s.rstrip()] *)
Fixpoint rstrip (s : string) : string :=
  match s with
  | EmptyString => EmptyString
  | String c rest =>
      match rstrip rest with
      | EmptyString => if is_space c then EmptyString else String c EmptyString
      | r => String c r
      end
  end.

(** [s.strip()] *)
Definition strip (s : string) : string := rstrip (lstrip s).

(** [s.endswith(c)] for a one-character suffix. *)
Fixpoint endswith_char (c : ascii) (s : string) : bool :=
  match s with
  | EmptyString => false
  | String d EmptyString => Ascii.eqb d c
  | String _ rest => endswith_char c rest
  end.

(** [s[:-1]] *)
Fixpoint drop_last (s : string) : string :=
  match s with
  | EmptyString => EmptyString
  | String _ EmptyString => EmptyString
  | String c rest => String c (drop_last rest)
  end.

(** [sub in s] for strings: [sub] occurs in [s] as a substring. *)
Fixpoint contains (sub s : string) : bool :=
  String.prefix sub s
  || match s with
     | EmptyString => false
     | String _ rest => contains sub rest
     end.

(** The first [n] characters of [s]. *)
Fixpoint take (n : nat) (s : string) : string :=
  match n, s with
  | O, _ => EmptyString
  | _, EmptyString => EmptyString
  | S n', String c rest => String c (take n' rest)
  end.

(** [s[:n]]: a negative [n] counts from the end. *)
Definition slice_to (s : string) (n : Z) : string :=
  if n <? 0 then take (Z.to_nat (Z.of_nat (String.length s) + n)) s
  else take (Z.to_nat n) s.

(** [len(s)] *)
Definition len (s : string) : Z := Z.of_nat (String.length s).

End PyStr.

(** ** Python dictionaries with string keys *)

Section Dict.

Context {V : Type}.

Definition dict := list (string * V).

(** [d.get(k)] *)
Fixpoint dict_get (k : string) (d : dict) : option V :=
  match d with
  | [] => None
  | (k', v) :: d' => if String.eqb k k' then Some v else dict_get k d'
  end.

(** [k in d] *)
Definition dict_mem (k : string) (d : dict) : bool :=
  match dict_get k d with Some _ => true | None => false end.

(** [d.get(k, default)] *)
Definition dict_get_default (k : string) (default : V) (d : dict) : V :=
  match dict_get k d with Some v => v | None => default end.

(** [d[k] = v] *)
Fixpoint dict_set (k : string) (v : V) (d : dict) : dict :=
  match d with
  | [] => [(k, v)]
  | (k', v') :: d' =>
      if String.eqb k k' then (k', v) :: d' else (k', v') :: dict_set k v d'
  end.

(** The dictionary left by [d.pop(k)]. *)
Fixpoint dict_pop (k : string) (d : dict) : dict :=
  match d with
  | [] => []
  | (k', v') :: d' =>
      if String.eqb k k' then d' else (k', v') :: dict_pop k d'
  end.

Definition dict_keys (d : dict) : list string := map fst d.

End Dict.

Arguments dict V : clear implicits.

(** ** The phrase reconciler: [deduplicate_keyphrases] *)

Module Reconciler.

Import PyStr.

(** [Counter(all_phrases)]: occurrences of each exact phrase, in the order
    in which the phrases are first seen. *)
Fixpoint counter_add (phrase : string) (c : dict Z) : dict Z :=
  match c with
  | [] => [(phrase, 1)]
  | (q, n) :: c' =>
      if String.eqb phrase q then (q, n + 1) :: c'
      else (q, n) :: counter_add phrase c'
  end.

Definition Counter (all_phrases : list string) : dict Z :=
  fold_left (fun c phrase => counter_add phrase c) all_phrases [].

(** [phrase.lower().strip()] *)
Definition norm (phrase : string) : string := strip (lower phrase).

(** One iteration of the grouping loop over [phrase_counts.items()]. *)
Definition group_step (normalized : dict Z) (item : string * Z) : dict Z :=
  let '(phrase, count) := item in
  let norm_key := norm phrase in
  if endswith_char "s" norm_key && dict_mem (drop_last norm_key) normalized
  then
    dict_set norm_key
      (dict_get_default norm_key 0 normalized + count
       + dict_get_default (drop_last norm_key) 0 normalized)
      (dict_pop (drop_last norm_key) normalized)
  else if dict_mem (norm_key ++ "s") normalized
  then
    dict_set (norm_key ++ "s")
      (dict_get_default (norm_key ++ "s") 0 normalized + count) normalized
  else
    dict_set norm_key (dict_get_default norm_key 0 normalized + count)
      normalized.

Definition group_phrases (phrase_counts : dict Z) : dict Z :=
  fold_left group_step phrase_counts [].

(** The sort key [(-x[1], x[0])] and the order of Python tuples on it. *)
Definition rank_ltb (x y : string * Z) : bool :=
  (- snd x <? - snd y)
  || (- snd x =? - snd y) && String.ltb (fst x) (fst y).

(** [sorted(items, key=...)]: a stable sort, written as insertion sort. *)
Fixpoint insert_ranked (x : string * Z) (l : list (string * Z)) :=
  match l with
  | [] => [x]
  | y :: l' => if rank_ltb y x then y :: insert_ranked x l' else x :: l
  end.

Definition sorted_by_rank (items : list (string * Z)) : list (string * Z) :=
  fold_right insert_ranked [] items.

(** The inner [for orig in all_phrases] scan: the first phrase whose
    normalized form is [phrase]. *)
Fixpoint find_original (phrase : string) (all_phrases : list string)
  : option string :=
  match all_phrases with
  | [] => None
  | orig :: rest =>
      if String.eqb (norm orig) phrase then Some orig
      else find_original phrase rest
  end.

Definition set_mem (x : string) (s : list string) : bool :=
  existsb (String.eqb x) s.

(** The emitting loop over [sorted_phrases], with its two accumulators. *)
Fixpoint emit (all_phrases : list string) (target_count : Z)
    (sorted_phrases : list (string * Z))
    (result seen_normalized : list string) : list string :=
  match sorted_phrases with
  | [] => result
  | (phrase, _) :: rest =>
      let '(result', seen') :=
        if set_mem phrase seen_normalized then (result, seen_normalized)
        else match find_original phrase all_phrases with
             | Some orig => ((result ++ [orig])%list, phrase :: seen_normalized)
             | None => ((result ++ [phrase])%list, phrase :: seen_normalized)
             end in
      if Z.of_nat (List.length result') >=? target_count then result'
      else emit all_phrases target_count rest result' seen'
  end.

Definition deduplicate_keyphrases (all_phrases : list string)
    (target_count : Z) : list string :=
  let phrase_counts := Counter all_phrases in
  let normalized := group_phrases phrase_counts in
  let sorted_phrases := sorted_by_rank normalized in
  emit all_phrases target_count sorted_phrases [] [].

End Reconciler.

(** ** The text normalizer: [strip_html_tags] *)

Module Normalizer.

Import PyStr.

(** [text] contains a [>]. *)
Fixpoint has_gt (text : string) : bool :=
  match text with
  | EmptyString => false
  | String c rest => Ascii.eqb c ">" || has_gt rest
  end.

(** The pattern [<[^>]+>] matches at [c :: rest]: [c] is [<], the next
    character is not [>], and a [>] follows later. The match then runs to
    the first such [>]. *)
Definition opens_tag (c : ascii) (rest : string) : bool :=
  Ascii.eqb c "<"
  && match rest with
     | EmptyString => false
     | String d rest' => negb (Ascii.eqb d ">") && has_gt rest'
     end.

(** [re.sub(r'<[^>]+>', ' ', text)]: the scan from left to right. Where
    the pattern matches, one space is emitted and the characters of the
    match are skipped ([in_tag] holds until its closing [>] is passed);
    elsewhere the character is copied. *)
Fixpoint sub_tags (in_tag : bool) (text : string) : string :=
  match text with
  | EmptyString => EmptyString
  | String c rest =>
      if in_tag then sub_tags (negb (Ascii.eqb c ">")) rest
      else if opens_tag c rest then String " " (sub_tags true rest)
      else String c (sub_tags false rest)
  end.

(** [re.sub(r'\s+', ' ', text)]: every maximal run of white space becomes
    one space ([in_run] holds inside a run whose space is already out). *)
Fixpoint sub_spaces (in_run : bool) (text : string) : string :=
  match text with
  | EmptyString => EmptyString
  | String c rest =>
      if is_space c
      then if in_run then sub_spaces true rest
           else String " " (sub_spaces true rest)
      else String c (sub_spaces false rest)
  end.

Definition strip_html_tags (text : string) : string :=
  match text with
  | EmptyString => EmptyString
  | _ =>
      let clean := sub_tags false text in
      let clean := sub_spaces false clean in
      strip clean
  end.

End Normalizer.

(** ** Exceptions *)

(** The exceptions the program can meet. The first three are raised by the
    interpreter on a value of an unexpected shape; the others come from
    reading a file and from the external extractor. *)
Inductive exn : Type :=
| TypeError
| KeyError
| AttributeError
| OSError
| JSONDecodeError
| NotImplementedError
| ExtractorError (message : string).

Inductive result (A : Type) : Type :=
| Ok (a : A)
| Raise (e : exn).

Arguments Ok {A} a.
Arguments Raise {A} e.

Definition bind {A B : Type} (m : result A) (k : A -> result B) : result B :=
  match m with
  | Ok a => k a
  | Raise e => Raise e
  end.

Notation "x <- m ;; k" := (bind m (fun x => k))
  (at level 61, m at next level, right associativity).

(** A loop whose body can raise: the accumulator is threaded through the
    items and the first exception ends the loop. *)
Fixpoint for_each {A S : Type} (body : S -> A -> result S) (items : list A)
    (acc : S) : result S :=
  match items with
  | [] => Ok acc
  | x :: rest => acc' <- body acc x ;; for_each body rest acc'
  end.

(** ** Parsed documents *)

Set Warnings "-register-all".

(** What [json.load] returns. A float is the rational it denotes. *)
Inductive json : Type :=
| JNull
| JBool (b : bool)
| JInt (z : Z)
| JFloat (q : Q)
| JStr (s : string)
| JList (l : list json)
| JDict (d : list (string * json)).

Module Py.

Import PyStr.

Definition is_str (v : json) : bool :=
  match v with JStr _ => true | _ => false end.

Definition is_dict (v : json) : bool :=
  match v with JDict _ => true | _ => false end.

(** [isinstance(v, (dict, list))] *)
Definition is_container (v : json) : bool :=
  match v with JDict _ | JList _ => true | _ => false end.

(** [bool(v)] *)
Definition truthy (v : json) : bool :=
  match v with
  | JNull => false
  | JBool b => b
  | JInt z => negb (z =? 0)
  | JFloat q => negb (Qeq_bool q 0)
  | JStr s => negb (String.eqb s "")
  | JList l => match l with [] => false | _ => true end
  | JDict d => match d with [] => false | _ => true end
  end.

(** [key in v] for a string [key]: a key of a mapping, an element of a
    sequence, a substring of a string; other values are not iterable. *)
Definition contains_key (key : string) (v : json) : result bool :=
  match v with
  | JDict d => Ok (dict_mem key d)
  | JList l =>
      Ok (existsb (fun x => match x with
                            | JStr s => String.eqb s key
                            | _ => false
                            end) l)
  | JStr s => Ok (contains key s)
  | _ => Raise TypeError
  end.

(** [v[key]] for a string [key]. *)
Definition getitem (v : json) (key : string) : result json :=
  match v with
  | JDict d => match dict_get key d with
               | Some x => Ok x
               | None => Raise KeyError
               end
  | _ => Raise TypeError
  end.

(** [v.get(key, default)] *)
Definition get (v : json) (key : string) (default : json) : result json :=
  match v with
  | JDict d => Ok (dict_get_default key default d)
  | _ => Raise AttributeError
  end.

(** The characters of a string, as the one-character strings that
    iterating over it yields. *)
Fixpoint chars (s : string) : list json :=
  match s with
  | EmptyString => []
  | String c rest => JStr (String c EmptyString) :: chars rest
  end.

(** The values that [for x in v] goes through. *)
Definition iterate (v : json) : result (list json) :=
  match v with
  | JList l => Ok l
  | JDict d => Ok (map (fun kv => JStr (fst kv)) d)
  | JStr s => Ok (chars s)
  | _ => Raise TypeError
  end.

(** The values that [for x in v[:n]] goes through: a mapping cannot be
    sliced. *)
Definition iterate_first (n : nat) (v : json) : result (list json) :=
  match v with
  | JList l => Ok (firstn n l)
  | JStr s => Ok (chars (take n s))
  | _ => Raise TypeError
  end.

(** [v.items()] *)
Definition items (v : json) : result (list (string * json)) :=
  match v with
  | JDict d => Ok d
  | _ => Raise AttributeError
  end.

(** [v.keys()] *)
Definition keys (v : json) : result (list string) :=
  match v with
  | JDict d => Ok (dict_keys d)
  | _ => Raise AttributeError
  end.

(** [sep.join(l)]: every element has to be a string. *)
Fixpoint strings_of (l : list json) : result (list string) :=
  match l with
  | [] => Ok []
  | JStr s :: rest => ss <- strings_of rest ;; Ok (s :: ss)
  | _ :: _ => Raise TypeError
  end.

Definition join (sep : string) (l : list json) : result string :=
  ss <- strings_of l ;; Ok (String.concat sep ss).

(** [sorted(l)] on strings, as insertion sort. *)
Fixpoint insert_sorted (x : string) (l : list string) : list string :=
  match l with
  | [] => [x]
  | y :: l' => if String.ltb y x then y :: insert_sorted x l' else x :: l
  end.

Definition sorted (l : list string) : list string :=
  fold_right insert_sorted [] l.

(** [os.path.basename]: what follows the last [/]. *)
Fixpoint basename (path : string) : string :=
  match path with
  | EmptyString => EmptyString
  | String c rest =>
      if contains "/" rest then basename rest
      else if Ascii.eqb c "/" then rest else path
  end.

(** The line feed. *)
Definition nl : string := String (ascii_of_nat 10) EmptyString.

End Py.

(** ** The document tree walker: [extract_text_content] *)

Module Walker.

Import PyStr Py Normalizer.

Definition priority_keys : list string :=
  [ "header"; "pageTitleSuffix"; "introductionHeader";
    "introductionBodyText";
    "useCaseHeader"; "useCaseBodyText"; "useCaseEndpoint"; "useCaseMethod";
    "sectionHeader"; "bodyText"; "subSectionHeader";
    "parameter"; "bodyText"; "details" ].

Definition is_priority (key : string) : bool :=
  existsb (String.eqb key) priority_keys.

(** [filter(None, texts)] *)
Definition nonempty (texts : list string) : list string :=
  filter (fun t => negb (String.eqb t "")) texts.

(** The body of [extract_text_content] once [max_depth] is positive;
    [walk] is the recursive call with [max_depth - 1]. *)
Definition collect_texts (walk : json -> string) (data : json)
  : list string :=
  match data with
  | JDict d =>
      flat_map (fun key =>
                  match dict_get key d with
                  | Some (JStr s) => [strip_html_tags s]
                  | Some (JDict _ as v) | Some (JList _ as v) => [walk v]
                  | _ => []
                  end) priority_keys
      ++ flat_map (fun kv =>
                     if negb (is_priority (fst kv)) && is_container (snd kv)
                     then [walk (snd kv)] else []) d
  | JList l => map walk l
  | _ => []
  end.

(** [extract_text_content] by recursion on the depth that is left. *)
Fixpoint extract_text (depth : nat) (data : json) : string :=
  match depth with
  | O => ""
  | S depth' =>
      String.concat " " (nonempty (collect_texts (extract_text depth') data))
  end.

Definition extract_text_content (data : json) (max_depth : Z) : string :=
  extract_text (Z.to_nat max_depth) data.

End Walker.

(** *** Two readings of the walker, for comparison with the code *)

Module WalkerSpec.

Import PyStr Py Normalizer Walker.

(** The walker as the specification words it: every string value under the
    node contributes, under any key and as an element of a sequence. *)
Fixpoint collect_text_all (depth : nat) (node : json) : string :=
  match depth with
  | O => ""
  | S depth' =>
      let visit v :=
        match v with
        | JStr s => [strip_html_tags s]
        | JDict _ | JList _ => [collect_text_all depth' v]
        | _ => []
        end in
      String.concat " "
        (nonempty
           match node with
           | JDict d =>
               flat_map (fun key => match dict_get key d with
                                    | Some v => visit v
                                    | None => []
                                    end) priority_keys
               ++ flat_map (fun kv => if is_priority (fst kv) then []
                                      else visit (snd kv)) d
           | JList l => flat_map visit l
           | _ => []
           end)
  end.

(** What a value under a priority key contributes: a string its normalized
    text, a container the fragments below it. *)
Definition priority_piece (below : json -> list string)
    (d : list (string * json)) (key : string) : list string :=
  match dict_get key d with
  | Some (JStr s) => nonempty [strip_html_tags s]
  | Some (JDict _ as v) | Some (JList _ as v) => below v
  | _ => []
  end.

(** What an entry of a mapping contributes in the second pass: nothing
    unless its key is off the priority list and its value a container. *)
Definition other_piece (below : json -> list string)
    (kv : string * json) : list string :=
  if negb (is_priority (fst kv)) && is_container (snd kv)
  then below (snd kv) else [].

(** The text fragments the code collects, as one flat list: the non-empty
    normalized strings under priority keys of the mappings that are reached
    within [depth] levels, priority-keyed content of a mapping first. *)
Fixpoint priority_fragments (depth : nat) (node : json) : list string :=
  match depth with
  | O => []
  | S depth' =>
      match node with
      | JDict d =>
          flat_map (priority_piece (priority_fragments depth') d)
            priority_keys
          ++ flat_map (other_piece (priority_fragments depth')) d
      | JList l => flat_map (priority_fragments depth') l
      | _ => []
      end
  end.

End WalkerSpec.

(** ** The classifier and the summarizer *)

Module Summarizer.

Import PyStr Py Normalizer.

Definition detect_document_type (content : json) (filepath : string)
  : result string :=
  let filepath_lower := lower filepath in
  if contains "api-reference" filepath_lower
     || contains "api reference" filepath_lower
     || contains "apireference" filepath_lower
  then Ok "api_reference"
  else if contains "guides" filepath_lower || contains "guide" filepath_lower
  then Ok "guide"
  else if contains "solution" filepath_lower
  then Ok "solution"
  else if contains "api-overview" filepath_lower
          || contains "product-overview" filepath_lower
          || contains "productoverview" filepath_lower
  then Ok "product_overview"
  else
    is_api <- contains_key "APIReference" content ;;
    if is_api then Ok "api_reference"
    else
      is_guide <- contains_key "gatewayGuides" content ;;
      if is_guide then Ok "guide" else Ok "product_overview".

(** [strip_html_tags] on a parsed value: a false value gives the empty
    string, and [re.sub] rejects what is not a string. *)
Definition strip_html_tags_value (text : json) : result string :=
  if negb (truthy text) then Ok ""
  else match text with
       | JStr s => Ok (strip_html_tags s)
       | _ => Raise TypeError
       end.

Definition truncation_marker : string := "...[truncated]".

(** [parts.append(line)] *)
Definition append {A : Type} (parts : list A) (line : A) : list A :=
  (parts ++ [line])%list.

Section Summary.

(** [str(v)] for a value that is not a string, as an f-string formats it;
    the summarizer does not look into the text it gets. *)
Variable repr : json -> string.

(** [f"{v}"] *)
Definition format (v : json) : string :=
  match v with
  | JStr s => s
  | _ => repr v
  end.

(** *** An API reference *)

Definition intro_section_parts (api_ref : json) (summary_parts : list string)
  : result (list string) :=
  has_intro <- contains_key "introSection" api_ref ;;
  if has_intro then
    intro <- getitem api_ref "introSection" ;;
    has_text <- contains_key "introductionBodyText" intro ;;
    summary_parts <-
      (if has_text then
         text <- getitem intro "introductionBodyText" ;;
         clean <- strip_html_tags_value text ;;
         Ok (append summary_parts ("Introduction: " ++ take 500 clean))
       else Ok summary_parts) ;;
    has_snippets <- contains_key "codeSnippetsIntroduction" intro ;;
    has_code <-
      (if has_snippets then
         snippets <- getitem intro "codeSnippetsIntroduction" ;;
         contains_key "code" snippets
       else Ok false) ;;
    if has_code then
      snippets <- getitem intro "codeSnippetsIntroduction" ;;
      code <- getitem snippets "code" ;;
      clean <- strip_html_tags_value code ;;
      Ok (append summary_parts ("Endpoints: " ++ clean))
    else Ok summary_parts
  else Ok summary_parts.

(** The body of the loop over [basicsSubsections]. *)
Definition scope_step (summary_parts : list string) (subsection : json)
  : result (list string) :=
  header <- get subsection "basicsSubsectionHeader" (JStr "") ;;
  is_scope <- contains_key "Scope" header ;;
  if is_scope then
    body <- get subsection "basicsSubsectionBodyText" (JStr "") ;;
    clean <- strip_html_tags_value body ;;
    Ok (append summary_parts ("Scopes: " ++ clean))
  else Ok summary_parts.

Definition scopes_parts (api_ref : json) (summary_parts : list string)
  : result (list string) :=
  has_basics <- contains_key "basicsSection" api_ref ;;
  has_subsections <-
    (if has_basics then
       basics <- getitem api_ref "basicsSection" ;;
       contains_key "basicsSubsections" basics
     else Ok false) ;;
  if has_subsections then
    basics <- getitem api_ref "basicsSection" ;;
    subsections <- getitem basics "basicsSubsections" ;;
    subsections <- iterate subsections ;;
    for_each scope_step subsections summary_parts
  else Ok summary_parts.

(** The body of the loop over the rows of a request-field table. *)
Definition row_step (fields : list json) (row : json) : result (list json) :=
  has_parameter <- contains_key "parameter" row ;;
  if has_parameter then
    parameter <- getitem row "parameter" ;;
    Ok (append fields (parameter))
  else Ok fields.

(** The body of the loop over [useCaseRequestFields]. *)
Definition request_field_step (fields : list json) (rf : json)
  : result (list json) :=
  has_table <- contains_key "basicsSubsectionTable" rf ;;
  has_row <-
    (if has_table then
       table <- getitem rf "basicsSubsectionTable" ;;
       contains_key "row" table
     else Ok false) ;;
  if has_row then
    table <- getitem rf "basicsSubsectionTable" ;;
    rows <- getitem table "row" ;;
    rows <- iterate rows ;;
    for_each row_step rows fields
  else Ok fields.

(** The body of the loop over [useCaseSections.items()]. *)
Definition use_case_step (summary_parts : list string)
    (item : string * json) : result (list string) :=
  let uc := snd item in
  if is_dict uc then
    uc_header <- get uc "useCaseHeader" (JStr "") ;;
    uc_method <- get uc "useCaseMethod" (JStr "") ;;
    uc_endpoint <- get uc "useCaseEndpoint" (JStr "") ;;
    uc_text <- get uc "useCaseBodyText" (JStr "") ;;
    uc_body <- strip_html_tags_value uc_text ;;
    let uc_body := take 200 uc_body in
    let summary_parts :=
      (append summary_parts
         ("- " ++ format uc_method ++ " " ++ format uc_header ++ ": "
          ++ format uc_endpoint)) in
    let summary_parts :=
      if String.eqb uc_body "" then summary_parts
      else (append summary_parts ("  " ++ uc_body)) in
    has_fields <- contains_key "useCaseRequestFields" uc ;;
    fields <-
      (if has_fields then
         request_fields <- getitem uc "useCaseRequestFields" ;;
         request_fields <- iterate request_fields ;;
         for_each request_field_step request_fields []
       else Ok []) ;;
    match fields with
    | [] => Ok summary_parts
    | _ =>
        joined <- join ", " (firstn 15 fields) ;;
        Ok (append summary_parts ("  Fields: " ++ joined))
    end
  else Ok summary_parts.

Definition use_cases_parts (api_ref : json) (summary_parts : list string)
  : result (list string) :=
  has_use_cases <- contains_key "useCaseSections" api_ref ;;
  if has_use_cases then
    let summary_parts := (append summary_parts (nl ++ "Use Cases:")) in
    sections <- getitem api_ref "useCaseSections" ;;
    sections <- items sections ;;
    for_each use_case_step sections summary_parts
  else Ok summary_parts.

Definition api_reference_parts (content : json) (summary_parts : list string)
  : result (list string) :=
  api_ref <- getitem content "APIReference" ;;
  has_header <- contains_key "header" api_ref ;;
  summary_parts <-
    (if has_header then
       header <- getitem api_ref "header" ;;
       Ok (append summary_parts ("API Name: " ++ format header))
     else Ok summary_parts) ;;
  summary_parts <- intro_section_parts api_ref summary_parts ;;
  summary_parts <- scopes_parts api_ref summary_parts ;;
  use_cases_parts api_ref summary_parts.

(** *** A guide *)

Definition header_section_parts (guide : json) (summary_parts : list string)
  : result (list string) :=
  has_header <- contains_key "headerSection" guide ;;
  if has_header then
    header_section <- getitem guide "headerSection" ;;
    header <- get header_section "header" (JStr "") ;;
    let summary_parts := (append summary_parts ("Guide: " ++ format header)) in
    has_intro <- contains_key "introText" header_section ;;
    if has_intro then
      intro <- getitem header_section "introText" ;;
      clean <- strip_html_tags_value intro ;;
      Ok (append summary_parts ("Intro: " ++ take 500 clean))
    else Ok summary_parts
  else Ok summary_parts.

(** The body of the loop over the first items of [contentBody]. *)
Definition body_item_step (summary_parts : list string) (item : json)
  : result (list string) :=
  if is_dict item then
    has_header <- contains_key "subSectionHeader" item ;;
    summary_parts <-
      (if has_header then
         header <- getitem item "subSectionHeader" ;;
         Ok (append summary_parts ("- " ++ format header))
       else Ok summary_parts) ;;
    has_body <- contains_key "bodyText" item ;;
    if has_body then
      body <- getitem item "bodyText" ;;
      clean <- strip_html_tags_value body ;;
      Ok (append summary_parts ("  " ++ take 200 clean))
    else Ok summary_parts
  else Ok summary_parts.

(** The body of the loop over [sorted(guide.keys())]. *)
Definition content_section_step (guide : json) (summary_parts : list string)
    (key : string) : result (list string) :=
  if String.prefix "contentSection" key then
    section <- getitem guide key ;;
    has_header <- contains_key "sectionHeader" section ;;
    summary_parts <-
      (if has_header then
         header <- getitem section "sectionHeader" ;;
         Ok (append summary_parts (nl ++ "Section: " ++ format header))
       else Ok summary_parts) ;;
    has_body <- contains_key "contentBody" section ;;
    if has_body then
      body <- getitem section "contentBody" ;;
      first_items <- iterate_first 3 body ;;
      for_each body_item_step first_items summary_parts
    else Ok summary_parts
  else Ok summary_parts.

Definition guide_parts (content : json) (summary_parts : list string)
  : result (list string) :=
  guide <- getitem content "gatewayGuides" ;;
  summary_parts <- header_section_parts guide summary_parts ;;
  guide_keys <- keys guide ;;
  for_each (content_section_step guide) (sorted guide_keys) summary_parts.

(** *** The summary *)

(** The text that [prepare_document_summary] assembles before it looks at
    [max_chars]. *)
Definition assemble_summary (filepath : string) (content : json)
  : result string :=
  doc_type <- detect_document_type content filepath ;;
  let filename := basename filepath in
  let summary_parts :=
    ["Document: " ++ filename; "Type: " ++ doc_type; ""] in
  is_api <-
    (if String.eqb doc_type "api_reference"
     then contains_key "APIReference" content else Ok false) ;;
  summary_parts <-
    (if is_api then api_reference_parts content summary_parts
     else
       is_guide <-
         (if String.eqb doc_type "guide"
          then contains_key "gatewayGuides" content else Ok false) ;;
       if is_guide then guide_parts content summary_parts
       else Ok summary_parts) ;;
  Ok (String.concat nl summary_parts).

Definition prepare_document_summary (filepath : string) (content : json)
    (max_chars : Z) : result string :=
  full_summary <- assemble_summary filepath content ;;
  if len full_summary >? max_chars
  then Ok (slice_to full_summary max_chars ++ truncation_marker)
  else Ok full_summary.

End Summary.

End Summarizer.

(** *** The shapes the summarizer expects *)

(** The schema of the documents, as far as [prepare_document_summary] reads
    it: which values have to be mappings, sequences or text when they are
    present. Every field is optional. *)
Module Schema.

Import PyStr Py.
















End Schema.

(** A stand-in for [str()] in the examples, none of which formats a value
    that is not a string. *)
Definition no_repr (v : json) : string := "".

(** ** The orchestrator: [process_file] and the loop of [main] *)

Module Batch.

Import PyStr Py Summarizer.

Record quota : Type := { target_per_page : Z; description : string }.

Definition product_overview_quota : quota :=
  {| target_per_page := 2;
     description := "Product name, key capability only" |}.

Definition QUOTAS : dict quota :=
  [ ("api_reference",
     {| target_per_page := 4;
        description := "API name, key operations, unique fields, scopes" |});
    ("guide",
     {| target_per_page := 6;
        description := "Workflow names, integration concepts, step names" |});
    ("solution",
     {| target_per_page := 4;
        description := "Use case names, business scenarios" |});
    ("product_overview", product_overview_quota) ].

(** [str(n)] for an integer. *)
Definition str_of_int (n : Z) : string := NilZero.string_of_int (Z.to_int n).

(** What [results_by_file] holds for a file: the extracted type and
    keyphrases, or the error. *)
Inductive file_entry : Type :=
| Extracted (doc_type : json) (keyphrases : json)
| Failed (e : exn).

(** The state of the loop of [main]. The keys of [stats_by_type] are the
    types that the extractor returns, which are any hashable value. *)
Record batch_state : Type := {
  all_keyphrases : list json;
  results_by_file : dict file_entry;
  stats_by_type : list (json * Z)
}.

Definition initial_state : batch_state :=
  {| all_keyphrases := [];
     results_by_file := [];
     stats_by_type := [ (JStr "api_reference", 0); (JStr "guide", 0);
                        (JStr "solution", 0); (JStr "product_overview", 0) ] |}.

(** A value can be a key of a dictionary. *)
Definition hashable (v : json) : bool := negb (is_container v).

Definition number_of (v : json) : option Q :=
  match v with
  | JBool b => Some (if b then 1%Q else 0%Q)
  | JInt z => Some (inject_Z z)
  | JFloat q => Some q
  | _ => None
  end.

(** Equality of dictionary keys: numbers and booleans by value. *)
Definition key_eqb (a b : json) : bool :=
  match a, b with
  | JNull, JNull => true
  | JStr s, JStr t => String.eqb s t
  | _, _ =>
      match number_of a, number_of b with
      | Some x, Some y => Qeq_bool x y
      | _, _ => false
      end
  end.

(** [stats.get(key, default)] *)
Fixpoint stats_get (key : json) (default : Z) (stats : list (json * Z)) : Z :=
  match stats with
  | [] => default
  | (k, n) :: rest => if key_eqb key k then n else stats_get key default rest
  end.

(** [stats[key] = n] *)
Fixpoint stats_set (key : json) (n : Z) (stats : list (json * Z))
  : list (json * Z) :=
  match stats with
  | [] => [(key, n)]
  | (k, m) :: rest =>
      if key_eqb key k then (k, n) :: rest else (k, m) :: stats_set key n rest
  end.

(** [len(v)] *)
Definition py_len (v : json) : result Z :=
  match v with
  | JList l => Ok (Z.of_nat (List.length l))
  | JStr s => Ok (len s)
  | JDict d => Ok (Z.of_nat (List.length d))
  | _ => Raise TypeError
  end.

(** The path of a file under [INPUT_DIR], from its path relative to it. *)
Definition full_path (relative_path : string) : string :=
  "keywords/" ++ relative_path.

Section Orchestrator.

(** [str()] on a value that is not a string. *)
Variable repr : json -> string.

(** Reading and parsing a file: [json.load(open(filepath))]. *)
Variable load_json : string -> result json.

(** The external extractor, from the prompt to its parsed answer. *)
Variable call_llm : string -> result json.

Definition process_file (filepath : string) : result json :=
  content <- load_json filepath ;;
  summary <- prepare_document_summary repr filepath content 15000 ;;
  doc_type <- detect_document_type content filepath ;;
  let quota := dict_get_default doc_type product_overview_quota QUOTAS in
  let prompt :=
    "Extract search keyphrases from this API documentation." ++ nl ++ nl
    ++ "Target: ~" ++ str_of_int (target_per_page quota)
    ++ " keyphrases (focus on: " ++ description quota ++ ")" ++ nl ++ nl
    ++ summary in
  call_llm prompt.

(** The body of the [try]: the state it leaves and the exception it ends
    with, if any. What it has stored before an exception stays stored. *)
Definition try_body (st : batch_state) (relative_path : string)
  : batch_state * option exn :=
  match process_file (full_path relative_path) with
  | Raise e => (st, Some e)
  | Ok result =>
  match get result "keyphrases" (JList []) with
  | Raise e => (st, Some e)
  | Ok keyphrases =>
  match get result "type" (JStr "unknown") with
  | Raise e => (st, Some e)
  | Ok doc_type =>
  match iterate keyphrases with
  | Raise e => (st, Some e)
  | Ok new_phrases =>
      let st :=
        {| all_keyphrases := (all_keyphrases st ++ new_phrases)%list;
           results_by_file :=
             dict_set relative_path (Extracted doc_type keyphrases)
               (results_by_file st);
           stats_by_type := stats_by_type st |} in
      if hashable doc_type then
        match py_len keyphrases with
        | Raise e => (st, Some e)
        | Ok n =>
            ({| all_keyphrases := all_keyphrases st;
                results_by_file := results_by_file st;
                stats_by_type :=
                  stats_set doc_type
                    (stats_get doc_type 0 (stats_by_type st) + n)
                    (stats_by_type st) |}, None)
        end
      else (st, Some TypeError)
  end end end end.

(** One iteration of the loop: the [try] and its [except Exception]. *)
Definition process_document (st : batch_state) (relative_path : string)
  : batch_state :=
  match try_body st relative_path with
  | (st', None) => st'
  | (st', Some e) =>
      {| all_keyphrases := all_keyphrases st';
         results_by_file :=
           dict_set relative_path (Failed e) (results_by_file st');
         stats_by_type := stats_by_type st' |}
  end.

(** The loop of [main] over the files found under [INPUT_DIR]. *)
Definition run_batch (json_files : list string) : batch_state :=
  fold_left process_document json_files initial_state.

End Orchestrator.

End Batch.

(** *** A batch of three documents, the second of which does not parse *)

Module Example.

Import Py Batch.

Definition webhooks_guide : json :=
  JDict [("gatewayGuides",
          JDict [("headerSection", JDict [("header", JStr "Webhooks")])])].

Definition load_json (filepath : string) : result json :=
  if String.eqb filepath "keywords/guides/broken.json"
  then Raise JSONDecodeError else Ok webhooks_guide.

Definition call_llm (prompt : string) : result json :=
  Ok (JDict [("document_name", JStr "webhooks.json");
             ("type", JStr "guide");
             ("keyphrases", JList [JStr "webhook listener"])]).


End Example.

(** ** Properties stated about the program *)

Module Properties.

Import PyStr Py Normalizer Reconciler Batch.

(** Every key of the accumulator is the normalized form of an input phrase. *)
Definition keys_from (all_phrases : list string) (d : dict Z) : Prop :=
  forall k, In k (dict_keys d) -> In k (map norm all_phrases).

(** The invariant of the specification: normalized forms pairwise different,
    and none of them another one followed by an "s". *)
Definition dedup_invariant (out : list string) : Prop :=
  NoDup (map norm out)
  /\ forall a b, In a out -> In b out -> norm a <> norm b ++ "s".

(** [x] is ranked before [y]: larger count first, then smaller key. *)
Definition ranks_before (x y : string * Z) : Prop :=
  snd y < snd x
  \/ (snd x = snd y /\ String.compare (fst x) (fst y) = Lt).

(** [x] is not ranked after [y]: what adjacent items of a sorted list
    satisfy. *)
Definition rank_le (x y : string * Z) : Prop := rank_ltb y x = false.

(** [text] has no position at which the tag pattern matches. *)
Fixpoint tagfree (text : string) : bool :=
  match text with
  | EmptyString => true
  | String c rest => negb (opens_tag c rest) && tagfree rest
  end.

(** [text] has no white space but single spaces; with [after_space], it
    does not start with one either. *)
Fixpoint collapsed (after_space : bool) (text : string) : bool :=
  match text with
  | EmptyString => true
  | String c rest =>
      if is_space c
      then negb after_space && Ascii.eqb c " " && collapsed true rest
      else collapsed false rest
  end.

(** [text] does not start with white space. *)
Definition no_leading_space (text : string) : Prop :=
  match text with
  | EmptyString => True
  | String c _ => is_space c = false
  end.

Definition nonempty_str (t : string) : Prop := t <> "".


(** Two states of the loop that differ only in the entry of the file
    [failing], which the first one records as failed with [e]. *)
Definition agree_except (failing : string) (e : exn)
    (st1 st2 : batch_state) : Prop :=
  all_keyphrases st1 = all_keyphrases st2
  /\ stats_by_type st1 = stats_by_type st2
  /\ dict_get failing (results_by_file st1) = Some (Failed e)
  /\ forall other, other <> failing ->
       dict_get other (results_by_file st1)
       = dict_get other (results_by_file st2).

End Properties.


(** ** Further notions used to state what the code does *)

Module Notions.

Import PyStr Py Normalizer Reconciler Summarizer Batch.

(** The four document types. *)
Definition document_types : list string :=
  ["api_reference"; "guide"; "solution"; "product_overview"].

(** A value on which [key in v] raises: [None], a boolean or a number. *)
Definition not_iterable (v : json) : bool :=
  match v with
  | JNull | JBool _ | JInt _ | JFloat _ => true
  | _ => false
  end.

(** The last character of a text. *)
Fixpoint last_char (text : string) : option ascii :=
  match text with
  | EmptyString => None
  | String c EmptyString => Some c
  | String _ rest => last_char rest
  end.

(** [text] does not end with white space. *)
Definition no_trailing_space (text : string) : Prop :=
  match last_char text with
  | Some c => is_space c = false
  | None => True
  end.

(** The texts in normal form: no position where the tag pattern matches,
    no white space but single spaces, none of them at either end. *)
Definition normalized_text (text : string) : Prop :=
  Properties.tagfree text = true
  /\ Properties.collapsed false text = true
  /\ Properties.no_leading_space text
  /\ no_trailing_space text.

(** The string that the emitting loop appends for a key of the
    accumulator: the first input phrase with that normalized form, else the
    key itself. *)
Definition representative (all_phrases : list string) (key : string)
  : string :=
  match find_original key all_phrases with
  | Some orig => orig
  | None => key
  end.

(** [sorted_phrases]: the entries of the accumulator in ranking order. *)
Definition ranking (all_phrases : list string) : list (string * Z) :=
  sorted_by_rank (group_phrases (Counter all_phrases)).

(** The sum of the counts held in a dictionary. *)
Definition total_count (d : dict Z) : Z :=
  fold_right (fun kv acc => snd kv + acc) 0 d.

(** The count accumulated under the normalized form of [phrase]. *)
Definition merged_count (all_phrases : list string) (phrase : string) : Z :=
  dict_get_default (norm phrase) 0 (group_phrases (Counter all_phrases)).

(** [key] is [form] followed by zero or more letters "s": the keys under
    which the merge of singular and plural can put a phrase of normalized
    form [form]. *)
Inductive plural_of (form : string) : string -> Prop :=
| plural_same : plural_of form form
| plural_more key : plural_of form key -> plural_of form (key ++ "s").

(** A computation of summary parts that, when it returns, returns [base]
    with further parts appended. *)
Definition extends_to (base : list string) (m : result (list string))
  : Prop :=
  match m with
  | Ok parts => exists more, parts = (base ++ more)%list
  | Raise _ => True
  end.

(** The three parts every summary starts with. *)
Definition header_parts (filepath doc_type : string) : list string :=
  ["Document: " ++ basename filepath; "Type: " ++ doc_type; ""].

(** The sum of the statistics by type. *)
Definition stats_total (stats : list (json * Z)) : Z :=
  fold_right (fun kv acc => snd kv + acc) 0 stats.

Definition TARGET_KEYPHRASE_COUNT : Z := 300.

(** [deduplicate_keyphrases] on what [main] has collected, which need not
    be strings: [Counter] raises a [TypeError] on an element that cannot be
    hashed, and [phrase.lower()] an [AttributeError] on one that is not a
    string. *)
Definition deduplicate_collected (all_phrases : list json)
    (target_count : Z) : result (list string) :=
  if forallb hashable all_phrases then
    match strings_of all_phrases with
    | Ok phrases => Ok (deduplicate_keyphrases phrases target_count)
    | Raise _ => Raise AttributeError
    end
  else Raise TypeError.

(** The step of [main] after the loop, which no [try] encloses. *)
Definition final_keyphrases (st : batch_state) : result (list string) :=
  deduplicate_collected (all_keyphrases st) TARGET_KEYPHRASE_COUNT.

(** The keyphrases collected beyond those counted in the statistics. *)
Definition uncounted (st : batch_state) : Z :=
  Z.of_nat (List.length (all_keyphrases st)) - stats_total (stats_by_type st).

(** The folder names that the classifier looks for in the path. *)
Definition path_hints : list string :=
  ["api-reference"; "api reference"; "apireference"; "guides"; "guide";
   "solution"; "api-overview"; "product-overview"; "productoverview"].

(** A computation of summary parts that, when it returns, has added at
    most [n] parts to [parts]. *)
Definition adds_at_most (n : nat) (parts : list string)
    (m : result (list string)) : Prop :=
  match m with
  | Ok parts' => (List.length parts' <= List.length parts + n)%nat
  | Raise _ => True
  end.

End Notions.

(** * Verification *)

Import Properties.

(** ** Facts about dictionaries *)

Section DictFacts.

Context {V : Type}.
Implicit Types (d : dict V) (k : string) (v : V).


Lemma dict_mem_keys k d : dict_mem k d = true <-> In k (dict_keys d).
Proof.
  unfold dict_mem.
  induction d as [|[k' v'] d IH]; simpl.
  - split; [discriminate|tauto].
  - destruct (String.eqb_spec k k') as [->|Hne].
    + split; auto.
    + rewrite IH. split; [tauto|]. intros [Heq|H]; [congruence|exact H].
Qed.

Lemma keys_dict_set k k' v d :
  In k (dict_keys (dict_set k' v d)) <-> k = k' \/ In k (dict_keys d).
Proof.
  induction d as [|[k0 v0] d IH]; simpl.
  - split; intros [H|H]; auto; try tauto.
  - destruct (String.eqb_spec k' k0) as [->|Hne]; simpl.
    + split; [tauto|]. intros [->|[H|H]]; auto.
    + rewrite IH. split; [tauto|]. tauto.
Qed.

Lemma keys_dict_pop k k' d :
  In k (dict_keys (dict_pop k' d)) -> In k (dict_keys d).
Proof.
  induction d as [|[k0 v0] d IH]; simpl; [tauto|].
  destruct (String.eqb_spec k' k0) as [->|Hne]; simpl; tauto.
Qed.

Lemma NoDup_dict_set k v d :
  NoDup (dict_keys d) -> NoDup (dict_keys (dict_set k v d)).
Proof.
  induction d as [|[k0 v0] d IH]; simpl; intros Hnd.
  - constructor; [tauto|constructor].
  - inversion_clear Hnd as [|? ? Hnotin Hnd'].
    destruct (String.eqb_spec k k0) as [->|Hne]; simpl.
    + now constructor.
    + constructor; [|now apply IH].
      rewrite keys_dict_set. intros [Heq|H]; [congruence|contradiction].
Qed.

Lemma NoDup_dict_pop k d :
  NoDup (dict_keys d) -> NoDup (dict_keys (dict_pop k d)).
Proof.
  induction d as [|[k0 v0] d IH]; simpl; intros Hnd; [constructor|].
  inversion_clear Hnd as [|? ? Hnotin Hnd'].
  destruct (String.eqb_spec k k0) as [->|Hne]; simpl; [assumption|].
  constructor; [|now apply IH].
  intros H. apply Hnotin. eapply keys_dict_pop; eassumption.
Qed.

End DictFacts.

(** ** The phrase reconciler *)

Import PyStr Reconciler.

Lemma counter_add_keys phrase c k :
  In k (dict_keys (counter_add phrase c)) -> k = phrase \/ In k (dict_keys c).
Proof.
  induction c as [|[q n] c IH]; simpl.
  - intros [H|[]]. now left.
  - destruct (String.eqb_spec phrase q) as [->|Hne]; simpl; tauto.
Qed.

Lemma Counter_keys all_phrases k :
  In k (dict_keys (Counter all_phrases)) -> In k all_phrases.
Proof.
  unfold Counter.
  assert (Hgen : forall c,
    In k (dict_keys (fold_left (fun c phrase => counter_add phrase c)
                       all_phrases c)) ->
    In k all_phrases \/ In k (dict_keys c)).
  { induction all_phrases as [|p ps IH]; simpl; intros c H; [now right|].
    destruct (IH _ H) as [Hin|Hin]; [tauto|].
    apply counter_add_keys in Hin. destruct Hin as [->|Hin]; auto. }
  intros H. destruct (Hgen _ H) as [Hin|[]]. exact Hin.
Qed.

Lemma group_step_keys all_phrases d item :
  keys_from all_phrases d -> In (fst item) all_phrases ->
  keys_from all_phrases (group_step d item).
Proof.
  intros Hd Hin k. destruct item as [phrase count]; simpl in Hin.
  unfold group_step.
  assert (Hnorm : In (norm phrase) (map norm all_phrases))
    by now apply in_map.
  destruct (endswith_char "s" (norm phrase)
            && dict_mem (drop_last (norm phrase)) d).
  - rewrite keys_dict_set. intros [->|H]; [exact Hnorm|].
    apply Hd. eapply keys_dict_pop; eassumption.
  - destruct (dict_mem (norm phrase ++ "s") d) eqn:Hmem.
    + rewrite keys_dict_set. intros [->|H]; [|now apply Hd].
      apply Hd. now apply dict_mem_keys.
    + rewrite keys_dict_set. intros [->|H]; [exact Hnorm|now apply Hd].
Qed.

Lemma group_phrases_keys all_phrases phrase_counts :
  (forall item, In item phrase_counts -> In (fst item) all_phrases) ->
  keys_from all_phrases (group_phrases phrase_counts).
Proof.
  unfold group_phrases.
  assert (Hgen : forall d,
    (forall item, In item phrase_counts -> In (fst item) all_phrases) ->
    keys_from all_phrases d ->
    keys_from all_phrases (fold_left group_step phrase_counts d)).
  { induction phrase_counts as [|item pc IH]; simpl; intros d Hpc Hd; auto.
    apply IH; [auto|]. apply group_step_keys; auto. }
  intros Hpc. apply Hgen; [exact Hpc|]. intros k [].
Qed.

Lemma accumulator_keys_from all_phrases :
  keys_from all_phrases (group_phrases (Counter all_phrases)).
Proof.
  apply group_phrases_keys. intros item Hin.
  apply Counter_keys. unfold dict_keys. now apply in_map.
Qed.

Lemma find_original_some k all_phrases orig :
  find_original k all_phrases = Some orig ->
  In orig all_phrases /\ norm orig = k.
Proof.
  induction all_phrases as [|p ps IH]; simpl; [discriminate|].
  destruct (String.eqb_spec (norm p) k) as [Heq|Hne].
  - intros [= ->]. auto.
  - intros H. destruct (IH H). auto.
Qed.

Lemma find_original_found k all_phrases :
  In k (map norm all_phrases) ->
  exists orig, find_original k all_phrases = Some orig.
Proof.
  induction all_phrases as [|p ps IH]; simpl; [tauto|].
  destruct (String.eqb_spec (norm p) k) as [Heq|Hne].
  - intros _. now exists p.
  - intros [H|H]; [contradiction|auto].
Qed.

Lemma insert_ranked_perm x l : Permutation (insert_ranked x l) (x :: l).
Proof.
  induction l as [|y l IH]; simpl; [reflexivity|].
  destruct (rank_ltb y x); [|reflexivity].
  rewrite IH. apply perm_swap.
Qed.

Lemma sorted_by_rank_perm items : Permutation (sorted_by_rank items) items.
Proof.
  induction items as [|x l IH]; simpl; [constructor|].
  rewrite insert_ranked_perm. now constructor.
Qed.

Lemma emit_from_input all_phrases target_count sorted_phrases :
  forall result seen,
  Forall (fun x => In x all_phrases) result ->
  (forall item, In item sorted_phrases ->
                In (fst item) (map norm all_phrases)) ->
  Forall (fun x => In x all_phrases)
    (emit all_phrases target_count sorted_phrases result seen).
Proof.
  induction sorted_phrases as [|[phrase c] rest IH]; simpl;
    intros result seen Hres Hkeys; [exact Hres|].
  assert (Hrest : forall item, In item rest ->
                    In (fst item) (map norm all_phrases)) by auto.
  destruct (set_mem phrase seen).
  - destruct (_ >=? _); auto.
  - destruct (find_original_found phrase all_phrases) as [orig Horig].
    { apply (Hkeys (phrase, c)). now left. }
    rewrite Horig.
    assert (Hres' : Forall (fun x => In x all_phrases) (result ++ [orig])).
    { apply Forall_app. split; [exact Hres|].
      constructor; [|constructor].
      now apply find_original_some in Horig. }
    destruct (_ >=? _); auto.
Qed.

(** C10. Every element returned by [deduplicate_keyphrases] occurs verbatim
    in the input list: every key of the accumulator is the normalized form
    of an input phrase, so the scan for the original casing always finds
    one and the fallback that would emit the bare key is never taken. *)
Theorem deduplicate_output_occurs_in_input
    (all_phrases : list string) (target_count : Z) :
  Forall (fun k => exists orig,
            find_original k all_phrases = Some orig /\ In orig all_phrases)
    (dict_keys (group_phrases (Counter all_phrases)))
  /\ Forall (fun x => In x all_phrases)
       (deduplicate_keyphrases all_phrases target_count).
Proof.
  split.
  - apply Forall_forall. intros k Hk.
    apply accumulator_keys_from in Hk.
    destruct (find_original_found _ _ Hk) as [orig Horig].
    exists orig. split; [exact Horig|].
    now apply find_original_some in Horig.
  - unfold deduplicate_keyphrases. apply emit_from_input; [constructor|].
    intros item Hin. apply accumulator_keys_from.
    unfold dict_keys. apply in_map.
    eapply Permutation_in; [apply sorted_by_rank_perm|exact Hin].
Qed.

(** C1. The worked example: the three invoice variants merge under the
    plural key with count 3 and rank first, [Refund] ranks second, and the
    representative is the first raw string whose normalized form is the
    merged key. *)
Theorem deduplicate_invoice_example :
  group_phrases (Counter ["Invoice"; "invoice"; "Invoices"; "Refund"])
    = [("invoices", 3); ("refund", 1)]
  /\ deduplicate_keyphrases ["Invoice"; "invoice"; "Invoices"; "Refund"] 10
     = ["Invoices"; "Refund"].
Proof. split; vm_compute; reflexivity. Qed.

(** *** The size of the result *)

Lemma emit_length_bound all_phrases target_count sorted_phrases :
  forall result seen,
  Z.of_nat (List.length result) < Z.max 1 target_count ->
  Z.of_nat (List.length
              (emit all_phrases target_count sorted_phrases result seen))
    <= Z.max 1 target_count.
Proof.
  induction sorted_phrases as [|[phrase c] rest IH]; simpl;
    intros result seen Hlen; [lia|].
  destruct (set_mem phrase seen).
  - destruct (Z.geb_spec (Z.of_nat (List.length result)) target_count);
      [lia|now apply IH].
  - destruct (find_original phrase all_phrases) as [orig|];
      match goal with
      | |- context [(result ++ [?x])%list] =>
          assert (Hlen' : List.length (result ++ [x])%list
                          = S (List.length result))
            by (rewrite length_app; simpl; lia);
          destruct (Z.geb_spec
                      (Z.of_nat (List.length (result ++ [x])%list))
                      target_count); [lia|apply IH; lia]
      end.
Qed.

(** The result never has more than [target_count] entries, except that it
    is allowed one entry when [target_count] is below 1. *)
Lemma deduplicate_length_bound all_phrases target_count :
  Z.of_nat (List.length (deduplicate_keyphrases all_phrases target_count))
    <= Z.max 1 target_count.
Proof.
  unfold deduplicate_keyphrases. apply emit_length_bound. simpl. lia.
Qed.

(** C2. With target count 0 and a non-empty input the loop appends one
    entry before it tests the size, so the result has length 1 and the
    bound [len <= N] is broken at [N = 0]. *)
Theorem deduplicate_zero_target_returns_one :
  deduplicate_keyphrases ["ACH payments"] 0 = ["ACH payments"]
  /\ ~ (Z.of_nat (List.length (deduplicate_keyphrases ["ACH payments"] 0))
        <= 0).
Proof. split; [vm_compute; reflexivity|vm_compute; intros H; apply H; reflexivity]. Qed.

(** *** The deduplication invariant *)

Lemma emit_distinct_forms all_phrases target_count sorted_phrases :
  forall result seen,
  (forall item, In item sorted_phrases ->
                In (fst item) (map norm all_phrases)) ->
  map norm result = rev seen -> NoDup seen ->
  NoDup (map norm
           (emit all_phrases target_count sorted_phrases result seen)).
Proof.
  induction sorted_phrases as [|[phrase c] rest IH]; simpl;
    intros result seen Hkeys Hmap Hnd.
  - rewrite Hmap. now apply NoDup_rev.
  - assert (Hrest : forall item, In item rest ->
                      In (fst item) (map norm all_phrases)) by auto.
    destruct (set_mem phrase seen) eqn:Hseen.
    + destruct (_ >=? _); [|now apply IH].
      rewrite Hmap. now apply NoDup_rev.
    + destruct (find_original_found phrase all_phrases) as [orig Horig].
      { apply (Hkeys (phrase, c)). now left. }
      rewrite Horig. apply find_original_some in Horig as [_ Hnorm].
      assert (Hmap' : map norm (result ++ [orig]) = rev (phrase :: seen)).
      { rewrite map_app, Hmap. simpl. now rewrite Hnorm. }
      assert (Hnd' : NoDup (phrase :: seen)).
      { constructor; [|exact Hnd]. intros Hin.
        unfold set_mem in Hseen.
        assert (Hex : existsb (String.eqb phrase) seen = true).
        { apply existsb_exists. exists phrase. split; [exact Hin|].
          apply String.eqb_refl. }
        congruence. }
      destruct (_ >=? _); [|now apply IH].
      rewrite Hmap'. now apply NoDup_rev.
Qed.

(** The half of the invariant that the code keeps: no two entries of the
    result have the same normalized form. *)
Lemma deduplicate_distinct_forms all_phrases target_count :
  NoDup (map norm (deduplicate_keyphrases all_phrases target_count)).
Proof.
  unfold deduplicate_keyphrases.
  apply emit_distinct_forms; [|reflexivity|constructor].
  intros item Hin. apply accumulator_keys_from.
  unfold dict_keys. apply in_map.
  eapply Permutation_in; [apply sorted_by_rank_perm|exact Hin].
Qed.

(** C3. A singular that arrives after the plural of its own plural: "pas"
    merges with "pa" in the first branch, which never looks for "pass", and
    the result keeps both "pas" and "pass". *)
Theorem deduplicate_keeps_plural_of_plural :
  group_phrases (Counter ["pa"; "pass"; "pas"]) = [("pass", 1); ("pas", 2)]
  /\ deduplicate_keyphrases ["pa"; "pass"; "pas"] 10 = ["pas"; "pass"]
  /\ ~ dedup_invariant (deduplicate_keyphrases ["pa"; "pass"; "pas"] 10).
Proof.
  split; [vm_compute; reflexivity|].
  split; [vm_compute; reflexivity|].
  intros [_ H].
  apply (H "pass" "pas"); vm_compute; auto.
Qed.

(** *** The ranking order *)

Lemma rank_ltb_spec x y : rank_ltb x y = true <-> ranks_before x y.
Proof.
  unfold rank_ltb, ranks_before, String.ltb.
  rewrite orb_true_iff, andb_true_iff, Z.ltb_lt, Z.eqb_eq.
  destruct (String.compare (fst x) (fst y)); split;
    intros [H|[H1 H2]]; try (left; lia); try discriminate;
    right; split; auto; lia.
Qed.

Lemma compare_lt_trans a b c :
  String.compare a b = Lt -> String.compare b c = Lt ->
  String.compare a c = Lt.
Proof.
  intros Hab Hbc.
  apply String_as_OT.cmp_lt. apply String_as_OT.cmp_lt in Hab, Hbc.
  eapply String_as_OT.lt_trans; eassumption.
Qed.

Lemma compare_lt_irrefl a : String.compare a a <> Lt.
Proof.
  intros H.
  assert (Heq : String.compare a a = Eq) by now apply String_as_OT.cmp_eq.
  congruence.
Qed.

Lemma ranks_before_trans x y z :
  ranks_before x y -> ranks_before y z -> ranks_before x z.
Proof.
  unfold ranks_before.
  intros [H1|[H1 H1']] [H2|[H2 H2']]; try (left; lia).
  right. split; [lia|]. eapply compare_lt_trans; eassumption.
Qed.

Lemma ranks_before_irrefl x : ~ ranks_before x x.
Proof.
  intros [H|[_ H]]; [lia|]. now apply compare_lt_irrefl in H.
Qed.

(** Two items are equal or one is ranked before the other. *)
Lemma ranks_before_total x y : ranks_before x y \/ x = y \/ ranks_before y x.
Proof.
  destruct x as [kx cx], y as [ky cy]. unfold ranks_before; simpl.
  destruct (Z.lt_trichotomy cx cy) as [H|[H|H]]; [right; right; left; lia| |left; left; lia].
  destruct (String.compare kx ky) eqn:Hc.
  - apply String.compare_eq_iff in Hc. subst. auto.
  - auto.
  - right. right. right. split; [lia|].
    rewrite String.compare_antisym, Hc. reflexivity.
Qed.

Lemma rank_le_iff x y : rank_le x y <-> x = y \/ ranks_before x y.
Proof.
  unfold rank_le. rewrite <- not_true_iff_false, rank_ltb_spec.
  split.
  - intros Hn. destruct (ranks_before_total x y) as [H|[H|H]]; tauto.
  - intros [->|H] Hn; [now apply ranks_before_irrefl in Hn|].
    apply (ranks_before_irrefl x). eapply ranks_before_trans; eassumption.
Qed.

Lemma rank_le_trans x y z : rank_le x y -> rank_le y z -> rank_le x z.
Proof.
  rewrite !rank_le_iff.
  intros [->|H1] [->|H2]; auto.
  right. eapply ranks_before_trans; eassumption.
Qed.

Lemma rank_le_antisym x y : rank_le x y -> rank_le y x -> x = y.
Proof.
  rewrite !rank_le_iff.
  intros [->|H1] [H2|H2]; auto.
  exfalso. apply (ranks_before_irrefl x).
  eapply ranks_before_trans; eassumption.
Qed.

Lemma insert_ranked_sorted x l :
  StronglySorted rank_le l -> StronglySorted rank_le (insert_ranked x l).
Proof.
  induction l as [|y l IH]; simpl; intros Hs.
  - constructor; constructor.
  - inversion_clear Hs as [|? ? Hs' Hall].
    destruct (rank_ltb y x) eqn:Hyx.
    + constructor; [now apply IH|].
      apply Forall_forall. intros z Hz.
      apply (Permutation_in _ (insert_ranked_perm x l)) in Hz.
      destruct Hz as [<-|Hz].
      * apply rank_le_iff. right. now apply rank_ltb_spec.
      * rewrite Forall_forall in Hall. now apply Hall.
    + constructor; [now constructor|].
      constructor; [exact Hyx|].
      apply Forall_forall. intros z Hz.
      rewrite Forall_forall in Hall.
      apply rank_le_trans with y; [exact Hyx|now apply Hall].
Qed.

Lemma sorted_by_rank_sorted items :
  StronglySorted rank_le (sorted_by_rank items).
Proof.
  induction items as [|x l IH]; simpl; [constructor|].
  now apply insert_ranked_sorted.
Qed.

(** A list sorted by rank is determined by its elements. *)
Lemma sorted_unique l1 :
  forall l2, StronglySorted rank_le l1 -> StronglySorted rank_le l2 ->
  Permutation l1 l2 -> l1 = l2.
Proof.
  induction l1 as [|a l1 IH]; intros l2 H1 H2 Hp.
  - apply Permutation_nil in Hp. now subst.
  - destruct l2 as [|b l2];
      [apply Permutation_sym, Permutation_nil in Hp; discriminate|].
    inversion_clear H1 as [|? ? H1' Ha].
    inversion_clear H2 as [|? ? H2' Hb].
    rewrite Forall_forall in Ha, Hb.
    assert (Hab : a = b).
    { assert (Hin1 : In a (b :: l2))
        by (eapply Permutation_in; [exact Hp|now left]).
      assert (Hin2 : In b (a :: l1))
        by (eapply Permutation_in;
            [apply Permutation_sym; exact Hp|now left]).
      destruct Hin1 as [Hin1|Hin1]; [now subst|].
      destruct Hin2 as [Hin2|Hin2]; [now subst|].
      apply rank_le_antisym; auto. }
    subst b. f_equal. apply IH; auto.
    eapply Permutation_cons_inv; exact Hp.
Qed.

Lemma sorted_by_rank_order_independent items items' :
  Permutation items items' -> sorted_by_rank items = sorted_by_rank items'.
Proof.
  intros Hp. apply sorted_unique; try apply sorted_by_rank_sorted.
  rewrite !sorted_by_rank_perm. exact Hp.
Qed.

Lemma group_step_NoDup d item :
  NoDup (dict_keys d) -> NoDup (dict_keys (group_step d item)).
Proof.
  intros Hnd. destruct item as [phrase count]. unfold group_step.
  destruct (_ && _); [|destruct (dict_mem _ _)];
    auto using NoDup_dict_set, NoDup_dict_pop.
Qed.

Lemma group_phrases_NoDup phrase_counts :
  NoDup (dict_keys (group_phrases phrase_counts)).
Proof.
  unfold group_phrases.
  assert (Hgen : forall d, NoDup (dict_keys d) ->
            NoDup (dict_keys (fold_left group_step phrase_counts d))).
  { induction phrase_counts as [|item pc IH]; simpl; intros d Hd; auto.
    apply IH. now apply group_step_NoDup. }
  apply Hgen. constructor.
Qed.

Lemma sorted_strict l :
  NoDup l -> StronglySorted rank_le l -> StronglySorted ranks_before l.
Proof.
  induction l as [|x l IH]; intros Hnd Hs; [constructor|].
  inversion_clear Hnd as [|? ? Hnotin Hnd'].
  inversion_clear Hs as [|? ? Hs' Hall].
  constructor; [auto|].
  rewrite Forall_forall in *. intros y Hy.
  destruct (proj1 (rank_le_iff x y) (Hall y Hy)) as [->|H];
    [contradiction|exact H].
Qed.

(** C9. [deduplicate_keyphrases] is a function of its arguments alone: the
    ranking is strictly sorted by descending merged count and then
    ascending normalized key, so it is the only such arrangement of the
    accumulator, and the result is the same in whatever order the entries
    of the accumulator are iterated. *)
Theorem deduplicate_deterministic
    (all_phrases : list string) (target_count : Z)
    (items : list (string * Z)) :
  Permutation items (group_phrases (Counter all_phrases)) ->
  StronglySorted ranks_before (sorted_by_rank items)
  /\ emit all_phrases target_count (sorted_by_rank items) [] []
     = deduplicate_keyphrases all_phrases target_count.
Proof.
  intros Hp. split.
  - apply sorted_strict; [|apply sorted_by_rank_sorted].
    eapply Permutation_NoDup;
      [apply Permutation_sym;
       etransitivity; [apply sorted_by_rank_perm|exact Hp]|].
    eapply NoDup_map_inv. apply group_phrases_NoDup.
  - unfold deduplicate_keyphrases.
    now rewrite (sorted_by_rank_order_independent _ _ Hp).
Qed.

Lemma deduplicate_deterministic_witness :
  let all_phrases := ["Invoice"; "invoice"; "Invoices"; "Refund"] in
  let items := [("refund", 1); ("invoices", 3)] in
  StronglySorted ranks_before (sorted_by_rank items)
  /\ emit all_phrases 10 (sorted_by_rank items) [] []
     = deduplicate_keyphrases all_phrases 10.
Proof.
  apply (deduplicate_deterministic
           ["Invoice"; "invoice"; "Invoices"; "Refund"] 10
           [("refund", 1); ("invoices", 3)]).
  vm_compute. apply perm_swap.
Defined.

(** ** The text normalizer *)

Import Normalizer.

Lemma opens_tag_has_gt c rest : opens_tag c rest = true -> has_gt rest = true.
Proof.
  unfold opens_tag. destruct rest as [|d rest']; simpl.
  - now rewrite andb_false_r.
  - rewrite !andb_true_iff. intros (_ & _ & H). rewrite H. apply orb_true_r.
Qed.

(** A rewriting [f] of the text after a [<] that keeps an immediate [>] in
    place and brings no new [>] cannot make the [<] open a tag. *)
Lemma opens_tag_preserved (f : string -> string) c rest :
  f EmptyString = EmptyString ->
  (forall r, exists r', f (String ">" r) = String ">" r') ->
  (forall s, has_gt (f s) = true -> has_gt s = true) ->
  opens_tag c rest = false -> opens_tag c (f rest) = false.
Proof.
  intros Hnil Hgt Hmono Hc.
  destruct (opens_tag c (f rest)) eqn:Hf; [|reflexivity].
  pose proof (opens_tag_has_gt _ _ Hf) as Hg. apply Hmono in Hg.
  unfold opens_tag in Hc, Hf.
  destruct (Ascii.eqb c "<"); [simpl in *|discriminate].
  destruct rest as [|d rest']; [now rewrite Hnil in Hf|].
  destruct (Ascii.eqb_spec d ">") as [->|Hd]; simpl in Hc.
  - destruct (Hgt rest') as [r' Hr']. rewrite Hr' in Hf. discriminate.
  - simpl in Hg. destruct (Ascii.eqb_spec d ">"); [contradiction|].
    simpl in Hg. congruence.
Qed.

Lemma sub_tags_has_gt text :
  forall b, has_gt (sub_tags b text) = true -> has_gt text = true.
Proof.
  induction text as [|c rest IH]; simpl; intros b; [auto|].
  destruct b.
  - intros H. apply IH in H. rewrite H. apply orb_true_r.
  - destruct (opens_tag c rest); simpl.
    + intros H. apply IH in H. rewrite H. apply orb_true_r.
    + destruct (Ascii.eqb c ">"); simpl; [auto|apply IH].
Qed.

Lemma sub_tags_tagfree text : forall b, tagfree (sub_tags b text) = true.
Proof.
  induction text as [|c rest IH]; simpl; intros b; [reflexivity|].
  destruct b; [apply IH|].
  destruct (opens_tag c rest) eqn:Hc; simpl.
  - apply IH.
  - rewrite IH, andb_true_r. apply negb_true_iff.
    apply (opens_tag_preserved (sub_tags false)); auto.
    + intros r. simpl. eauto.
    + intros s. apply sub_tags_has_gt.
Qed.

Lemma sub_tags_fixed text : tagfree text = true -> sub_tags false text = text.
Proof.
  induction text as [|c rest IH]; simpl; [reflexivity|].
  rewrite andb_true_iff, negb_true_iff. intros [-> H]. now rewrite IH.
Qed.

Lemma sub_spaces_has_gt text :
  forall b, has_gt (sub_spaces b text) = true -> has_gt text = true.
Proof.
  induction text as [|c rest IH]; simpl; intros b; [auto|].
  destruct (is_space c); [destruct b|]; simpl.
  - intros H. apply IH in H. rewrite H. apply orb_true_r.
  - intros H. apply IH in H. rewrite H. apply orb_true_r.
  - destruct (Ascii.eqb c ">"); simpl; [auto|apply IH].
Qed.

Lemma sub_spaces_tagfree text :
  forall b, tagfree text = true -> tagfree (sub_spaces b text) = true.
Proof.
  induction text as [|c rest IH]; simpl; intros b; [reflexivity|].
  rewrite andb_true_iff, negb_true_iff. intros [Hc Hrest].
  destruct (is_space c); [destruct b|]; simpl; auto.
  rewrite IH, andb_true_r by assumption. apply negb_true_iff.
  apply (opens_tag_preserved (sub_spaces false)); auto.
  - intros r. simpl. eauto.
  - intros s. apply sub_spaces_has_gt.
Qed.

Lemma lstrip_tagfree text : tagfree text = true -> tagfree (lstrip text) = true.
Proof.
  induction text as [|c rest IH]; simpl; [reflexivity|].
  destruct (is_space c); simpl; [|auto].
  rewrite andb_true_iff. intros [_ H]. auto.
Qed.

Lemma rstrip_cons_not_space c rest :
  is_space c = false -> rstrip (String c rest) = String c (rstrip rest).
Proof. intros H. simpl. rewrite H. now destruct (rstrip rest). Qed.

Lemma rstrip_has_gt text : has_gt (rstrip text) = true -> has_gt text = true.
Proof.
  induction text as [|c rest IH]; simpl; [auto|].
  destruct (rstrip rest) as [|d r] eqn:Hr.
  - destruct (is_space c); simpl; [discriminate|].
    rewrite orb_false_r. intros ->. reflexivity.
  - simpl. destruct (Ascii.eqb c ">"); simpl; [auto|]. exact IH.
Qed.

Lemma rstrip_tagfree text : tagfree text = true -> tagfree (rstrip text) = true.
Proof.
  induction text as [|c rest IH]; [reflexivity|].
  cbn [tagfree]. rewrite andb_true_iff, negb_true_iff. intros [Hc Hrest].
  assert (Hopen : opens_tag c (rstrip rest) = false).
  { apply (opens_tag_preserved rstrip); auto.
    - intros r. exists (rstrip r). now apply rstrip_cons_not_space.
    - apply rstrip_has_gt. }
  simpl. destruct (rstrip rest) as [|d r] eqn:Hr.
  - destruct (is_space c); [reflexivity|].
    simpl. now rewrite Hopen.
  - specialize (IH Hrest).
    change (tagfree (String c (String d r)))
      with (negb (opens_tag c (String d r)) && tagfree (String d r)).
    now rewrite Hopen, IH.
Qed.

Lemma sub_spaces_collapsed text :
  forall b, collapsed b (sub_spaces b text) = true.
Proof.
  induction text as [|c rest IH]; simpl; intros b; [reflexivity|].
  destruct (is_space c) eqn:Hc; [destruct b|]; simpl.
  - apply IH.
  - apply IH.
  - rewrite Hc. apply IH.
Qed.

Lemma sub_spaces_fixed text :
  forall b, collapsed b text = true -> sub_spaces b text = text.
Proof.
  induction text as [|c rest IH]; simpl; intros b; [reflexivity|].
  destruct (is_space c).
  - rewrite !andb_true_iff, negb_true_iff.
    intros [[-> Hc] Hrest]. apply Ascii.eqb_eq in Hc. subst c.
    now rewrite IH.
  - intros H. now rewrite IH.
Qed.

Lemma collapsed_weaken b text :
  collapsed b text = true -> collapsed false text = true.
Proof.
  destruct text as [|c rest]; simpl; [auto|].
  destruct (is_space c); [|auto].
  rewrite !andb_true_iff. intros [[_ H1] H2]. auto.
Qed.

Lemma lstrip_collapsed text :
  collapsed false text = true -> collapsed false (lstrip text) = true.
Proof.
  induction text as [|c rest IH]; simpl; [auto|].
  destruct (is_space c) eqn:Hc; simpl.
  - rewrite andb_true_iff. intros [_ H]. apply IH.
    eapply collapsed_weaken; eassumption.
  - rewrite Hc. auto.
Qed.

Lemma rstrip_collapsed text :
  forall b, collapsed b text = true -> collapsed b (rstrip text) = true.
Proof.
  induction text as [|c rest IH]; intros b; [reflexivity|].
  cbn [collapsed]. intros H. simpl.
  destruct (rstrip rest) as [|d r] eqn:Hr.
  - destruct (is_space c) eqn:Hc; [reflexivity|]. simpl. now rewrite Hc.
  - cbn [collapsed]. destruct (is_space c).
    + rewrite !andb_true_iff in *. destruct H as [H1 H2].
      split; [exact H1|]. exact (IH _ H2).
    + exact (IH _ H).
Qed.

Lemma rstrip_idempotent text : rstrip (rstrip text) = rstrip text.
Proof.
  induction text as [|c rest IH]; [reflexivity|].
  simpl. destruct (rstrip rest) as [|d r] eqn:Hr.
  - destruct (is_space c) eqn:Hc; [reflexivity|]. simpl. now rewrite Hc.
  - change (rstrip (String c (String d r))) with
      (match rstrip (String d r) with
       | EmptyString =>
           if is_space c then EmptyString else String c EmptyString
       | r' => String c r'
       end).
    now rewrite IH.
Qed.

Lemma lstrip_no_leading_space text : no_leading_space (lstrip text).
Proof.
  induction text as [|c rest IH]; simpl; [exact I|].
  destruct (is_space c) eqn:Hc; [exact IH|exact Hc].
Qed.

Lemma rstrip_no_leading_space text :
  no_leading_space text -> no_leading_space (rstrip text).
Proof.
  destruct text as [|c rest]; simpl; [auto|].
  intros Hc. rewrite Hc. now destruct (rstrip rest).
Qed.

Lemma lstrip_fixed text : no_leading_space text -> lstrip text = text.
Proof. destruct text as [|c rest]; simpl; [auto|]. now intros ->. Qed.

Lemma strip_idempotent text : strip (strip text) = strip text.
Proof.
  unfold strip.
  rewrite (lstrip_fixed (rstrip (lstrip text))).
  - apply rstrip_idempotent.
  - apply rstrip_no_leading_space, lstrip_no_leading_space.
Qed.

Lemma strip_html_tags_unfold text :
  strip_html_tags text = strip (sub_spaces false (sub_tags false text)).
Proof. destruct text; reflexivity. Qed.

(** C8. [strip_html_tags] is idempotent. *)
Theorem strip_html_tags_idempotent (x : string) :
  strip_html_tags (strip_html_tags x) = strip_html_tags x.
Proof.
  rewrite (strip_html_tags_unfold (strip_html_tags x)).
  rewrite (strip_html_tags_unfold x).
  set (w := sub_spaces false (sub_tags false x)).
  assert (Htag : tagfree (strip w) = true).
  { unfold strip. apply rstrip_tagfree, lstrip_tagfree.
    apply sub_spaces_tagfree, sub_tags_tagfree. }
  assert (Hcol : collapsed false (strip w) = true).
  { unfold strip. apply rstrip_collapsed, lstrip_collapsed.
    apply sub_spaces_collapsed. }
  rewrite (sub_tags_fixed _ Htag), (sub_spaces_fixed _ _ Hcol).
  apply strip_idempotent.
Qed.

(** ** The document tree walker *)

Import Py Walker WalkerSpec.

Lemma append_assoc (a b c : string) : (a ++ b) ++ c = a ++ (b ++ c).
Proof. induction a as [|x a IH]; simpl; [reflexivity|now rewrite IH]. Qed.

Lemma concat_cons sep x l :
  l <> [] -> String.concat sep (x :: l) = x ++ sep ++ String.concat sep l.
Proof. destruct l; [contradiction|reflexivity]. Qed.

Lemma concat_app_nonempty sep l1 l2 :
  l1 <> [] -> l2 <> [] ->
  String.concat sep (l1 ++ l2)%list
  = String.concat sep l1 ++ sep ++ String.concat sep l2.
Proof.
  induction l1 as [|x l1 IH]; intros H1 H2; [contradiction|].
  destruct l1 as [|y l1].
  - simpl app. now rewrite concat_cons.
  - change ((x :: y :: l1) ++ l2)%list with (x :: ((y :: l1) ++ l2))%list.
    rewrite concat_cons by discriminate.
    rewrite IH by (auto; discriminate).
    rewrite (concat_cons sep x (y :: l1)) by discriminate.
    now rewrite !append_assoc.
Qed.

Lemma concat_empty_iff l :
  Forall nonempty_str l -> String.concat " " l = "" <-> l = [].
Proof.
  intros Hl. destruct l as [|x l]; [simpl; tauto|].
  inversion_clear Hl as [|? ? Hx _].
  split; [|discriminate]. intros H. exfalso.
  destruct x as [|c x]; [now apply Hx|].
  destruct l; simpl in H; discriminate.
Qed.

Lemma nonempty_Forall l : Forall nonempty_str (nonempty l).
Proof.
  apply Forall_forall. intros t Ht. apply filter_In in Ht as [_ Ht].
  apply negb_true_iff, String.eqb_neq in Ht. exact Ht.
Qed.

Lemma nonempty_app l1 l2 : nonempty (l1 ++ l2) = (nonempty l1 ++ nonempty l2)%list.
Proof. apply filter_app. Qed.

(** Joining joined pieces is joining the fragments of all pieces. *)
Lemma join_pieces (pieces : list (list string)) :
  Forall (Forall nonempty_str) pieces ->
  String.concat " " (nonempty (map (String.concat " ") pieces))
  = String.concat " " (List.concat pieces).
Proof.
  induction pieces as [|p ps IH]; intros Hall; [reflexivity|].
  inversion_clear Hall as [|? ? Hp Hps]. specialize (IH Hps).
  assert (Hcat : Forall nonempty_str (List.concat ps)).
  { apply Forall_concat. exact Hps. }
  destruct p as [|x p]; [exact IH|].
  assert (Hne : String.concat " " (x :: p) <> "").
  { intros He. apply concat_empty_iff in He; [discriminate|exact Hp]. }
  assert (Hstep :
    nonempty (map (String.concat " ") ((x :: p) :: ps))
    = String.concat " " (x :: p) :: nonempty (map (String.concat " ") ps)).
  { unfold nonempty. cbn [map filter].
    destruct (String.eqb_spec (String.concat " " (x :: p)) "");
      [contradiction|reflexivity]. }
  rewrite Hstep. cbn [List.concat].
  set (R := nonempty (map (String.concat " ") ps)) in *.
  destruct (List.concat ps) as [|y ys] eqn:Hc.
  - assert (HR : R = []).
    { apply concat_empty_iff; [apply nonempty_Forall|exact IH]. }
    rewrite HR, app_nil_r. reflexivity.
  - assert (HR : R <> []).
    { intros HR. rewrite HR in IH. symmetry in IH.
      apply concat_empty_iff in IH; [discriminate|exact Hcat]. }
    rewrite concat_cons by exact HR.
    rewrite IH.
    rewrite concat_app_nonempty by discriminate. reflexivity.
Qed.

(** A loop that appends at most one text per item collects, once the empty
    texts are filtered out, the texts of all items. *)
Lemma nonempty_flat_map {A : Type} (f : A -> list string) (h : A -> string)
    (l : list A) :
  (forall x, f x = [h x] \/ (f x = [] /\ h x = "")) ->
  nonempty (flat_map f l) = nonempty (map h l).
Proof.
  intros Hf. induction l as [|x l IH]; [reflexivity|].
  cbn [flat_map map]. rewrite nonempty_app, IH.
  change (h x :: map h l) with ([h x] ++ map h l)%list.
  rewrite (nonempty_app [h x]).
  destruct (Hf x) as [->|[-> Hx]]; [reflexivity|].
  rewrite Hx. reflexivity.
Qed.

Lemma concat_nonempty_singleton t : String.concat " " (nonempty [t]) = t.
Proof.
  unfold nonempty. simpl.
  destruct (String.eqb_spec t ""); simpl; congruence.
Qed.

Lemma extract_text_fragments depth :
  forall data,
  extract_text depth data = String.concat " " (priority_fragments depth data)
  /\ Forall nonempty_str (priority_fragments depth data).
Proof.
  induction depth as [|depth IH]; intros data; [split; [reflexivity|constructor]|].
  assert (IHtext : forall v, extract_text depth v
                     = String.concat " " (priority_fragments depth v))
    by (intros v; apply IH).
  assert (IHne : forall v, Forall nonempty_str (priority_fragments depth v))
    by (intros v; apply IH).
  assert (Hprio : forall d key,
            Forall nonempty_str
              (priority_piece (priority_fragments depth) d key)).
  { intros d key. unfold priority_piece.
    destruct (dict_get key d) as [[]|]; auto using nonempty_Forall. }
  assert (Hother : forall kv,
            Forall nonempty_str (other_piece (priority_fragments depth) kv)).
  { intros kv. unfold other_piece. destruct (_ && _); auto. }
  destruct data as [| | | | |l|d];
    cbn [extract_text collect_texts priority_fragments];
    [split; [reflexivity|constructor] ..| |].
  - (* a sequence *)
    split.
    + rewrite (map_ext _ (fun v => String.concat " "
                                     (priority_fragments depth v)))
        by exact IHtext.
      rewrite <- (map_map (priority_fragments depth) (String.concat " ")).
      rewrite join_pieces, <- flat_map_concat_map; [reflexivity|].
      apply Forall_map, Forall_forall. intros v _. apply IHne.
    + rewrite flat_map_concat_map. apply Forall_concat.
      apply Forall_map, Forall_forall. intros v _. apply IHne.
  - (* a mapping *)
    split.
    + rewrite nonempty_app.
      rewrite (nonempty_flat_map _
                 (fun key => String.concat " "
                    (priority_piece (priority_fragments depth) d key))).
      2:{ intros key. unfold priority_piece.
          destruct (dict_get key d) as [[]|]; auto;
            try (left; now rewrite IHtext).
          left. now rewrite concat_nonempty_singleton. }
      rewrite (nonempty_flat_map _
                 (fun kv => String.concat " "
                    (other_piece (priority_fragments depth) kv))).
      2:{ intros kv. unfold other_piece.
          destruct (_ && _); auto. left. now rewrite IHtext. }
      rewrite <- nonempty_app.
      rewrite <- (map_map (priority_piece (priority_fragments depth) d)
                    (String.concat " ")).
      rewrite <- (map_map (other_piece (priority_fragments depth))
                    (String.concat " ")).
      rewrite <- map_app, join_pieces.
      * rewrite concat_app, <- !flat_map_concat_map. reflexivity.
      * apply Forall_app. split; apply Forall_map, Forall_forall; auto.
    + apply Forall_app. split; rewrite flat_map_concat_map;
        apply Forall_concat, Forall_map, Forall_forall; auto.
Qed.

(** X24. What the code collects. [extract_text_content] returns the
    space-joined list of the non-empty normalized strings found under
    priority keys of
    the mappings reached within [max_depth] levels, through containers
    under any key and through the elements of sequences; in each mapping the
    priority-keyed content comes first. *)
Theorem extract_text_content_priority_fragments
    (node : json) (max_depth : Z) :
  extract_text_content node max_depth
  = String.concat " " (priority_fragments (Z.to_nat max_depth) node)
  /\ Forall (fun t => t <> "") (priority_fragments (Z.to_nat max_depth) node).
Proof. apply extract_text_fragments. Qed.

(** C4. The docstring promises all text content of the nested document,
    and the code loses some of it: the string elements of a sequence, also
    of one under a priority key, and a string under a key off the priority
    list contribute nothing, where the walker of the specification returns
    their text. *)
Theorem extract_text_content_drops_strings :
  extract_text_content
    (JDict [("details", JList [JStr "PROCESSED"; JStr "REJECTED"])]) 10 = ""
  /\ collect_text_all 10
       (JDict [("details", JList [JStr "PROCESSED"; JStr "REJECTED"])])
     = "PROCESSED REJECTED"
  /\ extract_text_content (JList [JStr "RTP"; JStr "FedNow"]) 10 = ""
  /\ collect_text_all 10 (JList [JStr "RTP"; JStr "FedNow"]) = "RTP FedNow"
  /\ extract_text_content (JDict [("summary", JStr "Instant payments")]) 10
     = ""
  /\ collect_text_all 10 (JDict [("summary", JStr "Instant payments")])
     = "Instant payments".
Proof. repeat split; vm_compute; reflexivity. Qed.

(** ** The summarizer *)

Import Summarizer Schema.

Lemma length_append (a b : string) :
  String.length (a ++ b) = (String.length a + String.length b)%nat.
Proof. induction a as [|c a IH]; simpl; [reflexivity|now rewrite IH]. Qed.

Lemma length_take n : forall s, (String.length (take n s) <= n)%nat.
Proof.
  induction n as [|n IH]; intros s; simpl; [lia|].
  destruct s as [|c s]; simpl; [lia|]. specialize (IH s). lia.
Qed.

Lemma take_all n : forall s, (String.length s <= n)%nat -> take n s = s.
Proof.
  induction n as [|n IH]; intros [|c s]; simpl; intros H;
    try reflexivity; try lia.
  rewrite IH by lia. reflexivity.
Qed.

(** What the last step of [prepare_document_summary] returns. *)
Lemma prepare_document_summary_truncates repr filepath content max_chars
    full_summary :
  assemble_summary repr filepath content = Ok full_summary ->
  prepare_document_summary repr filepath content max_chars
  = Ok (if len full_summary >? max_chars
        then slice_to full_summary max_chars ++ truncation_marker
        else full_summary).
Proof.
  intros H. unfold prepare_document_summary. rewrite H. simpl.
  now destruct (_ >? _).
Qed.

(** C6, as the code has it. For [max_chars >= 0], a summary that is
    returned has at most [max_chars + len(marker)] characters; and whenever
    the assembled text is longer than [max_chars], the summary is a prefix
    of it followed by the truncation marker. *)
Theorem summary_length_bound (repr : json -> string)
    (filepath : string) (content : json) (max_chars : Z)
    (full_summary : string) :
  assemble_summary repr filepath content = Ok full_summary ->
  exists summary,
    prepare_document_summary repr filepath content max_chars = Ok summary
    /\ (0 <= max_chars -> len summary <= max_chars + len truncation_marker)
    /\ (len full_summary > max_chars ->
        summary = slice_to full_summary max_chars ++ truncation_marker).
Proof.
  intros H. eexists.
  split; [apply prepare_document_summary_truncates; exact H|].
  unfold len. split.
  - intros Hpos.
    destruct (Z.gtb_spec (Z.of_nat (String.length full_summary)) max_chars)
      as [Hgt|Hle].
    + rewrite length_append. unfold slice_to.
      destruct (Z.ltb_spec max_chars 0); [lia|].
      pose proof (length_take (Z.to_nat max_chars) full_summary). lia.
    + lia.
  - intros Hgt.
    destruct (Z.gtb_spec (Z.of_nat (String.length full_summary)) max_chars);
      [reflexivity|lia].
Qed.

Lemma summary_length_bound_witness :
  exists summary,
    prepare_document_summary no_repr "keywords/guides/webhooks.json"
      (JDict [("gatewayGuides",
               JDict [("headerSection", JDict [("header", JStr "Webhooks")])])])
      20 = Ok summary
    /\ (0 <= 20 -> len summary <= 20 + len truncation_marker)
    /\ (len (String.concat nl
               ["Document: webhooks.json"; "Type: guide"; "";
                "Guide: Webhooks"]) > 20 ->
        summary = slice_to (String.concat nl
                              ["Document: webhooks.json"; "Type: guide"; "";
                               "Guide: Webhooks"]) 20
                  ++ truncation_marker).
Proof.
  apply (summary_length_bound no_repr "keywords/guides/webhooks.json"
           (JDict [("gatewayGuides",
                    JDict [("headerSection",
                            JDict [("header", JStr "Webhooks")])])])
           20).
  vm_compute. reflexivity.
Defined.

(** C6, as stated, fails for a negative [max_chars]: the slice drops
    characters from the end and the summary is longer than
    [max_chars + len(marker)]. *)
Lemma summary_bound_fails_for_negative_max_chars :
  prepare_document_summary no_repr "keywords/api-overview/overview.json"
    (JDict []) (-1)
  = Ok ("Document: overview.json" ++ nl ++ "Type: product_overview"
        ++ truncation_marker)
  /\ ~ (len ("Document: overview.json" ++ nl ++ "Type: product_overview"
             ++ truncation_marker)
        <= -1 + len truncation_marker).
Proof. split; [vm_compute; reflexivity|vm_compute; intros H; apply H; reflexivity]. Qed.

(** *** Totality on documents of the expected shape *)

#[local] Arguments take : simpl never.













Section Totality.

Variable repr : json -> string.
















End Totality.



(** ** The orchestrator *)

Import Batch.

Lemma dict_get_set {V : Type} k k' (v : V) d :
  dict_get k (dict_set k' v d)
  = if String.eqb k k' then Some v else dict_get k d.
Proof.
  induction d as [|[k0 v0] d IH]; simpl.
  - reflexivity.
  - destruct (String.eqb_spec k' k0) as [->|Hne]; simpl.
    + now destruct (String.eqb k k0).
    + rewrite IH. destruct (String.eqb_spec k k0) as [->|]; [|reflexivity].
      destruct (String.eqb_spec k0 k'); [congruence|reflexivity].
Qed.

Section Isolation.

Variable repr : json -> string.
Variable load_json : string -> result json.
Variable call_llm : string -> result json.

Variables (failing : string) (e : exn).
Hypothesis Hfail :
  process_file repr load_json call_llm (full_path failing) = Raise e.

Lemma failing_document_agree st :
  agree_except failing e (process_document repr load_json call_llm st failing) st.
Proof.
  unfold process_document, try_body. rewrite Hfail.
  unfold agree_except; simpl. repeat split.
  - now rewrite dict_get_set, String.eqb_refl.
  - intros other Hne. rewrite dict_get_set.
    now destruct (String.eqb_spec other failing).
Qed.

Lemma process_document_agree st1 st2 f :
  agree_except failing e st1 st2 ->
  agree_except failing e
    (process_document repr load_json call_llm st1 f)
    (process_document repr load_json call_llm st2 f).
Proof.
  intros (Hkp & Hstats & Hget & Hothers).
  destruct st1 as [kp1 res1 stats1], st2 as [kp2 res2 stats2].
  simpl in Hkp, Hstats, Hget, Hothers. subst kp2 stats2.
  assert (Hset : forall v,
    dict_get failing (dict_set f v res1)
      = (if String.eqb failing f then Some v else Some (Failed e))
    /\ forall other, other <> failing ->
         dict_get other (dict_set f v res1)
         = dict_get other (dict_set f v res2)).
  { intros v. split.
    - rewrite dict_get_set, Hget. reflexivity.
    - intros other Hne. rewrite !dict_get_set, Hothers by exact Hne.
      reflexivity. }
  unfold process_document, try_body.
  destruct (String.eqb_spec f failing) as [->|Hne].
  - rewrite Hfail. unfold agree_except; simpl. repeat split.
    + now rewrite dict_get_set, String.eqb_refl.
    + intros other Ho. rewrite !dict_get_set.
      destruct (String.eqb_spec other failing); [contradiction|auto].
  - assert (Hff : String.eqb failing f = false)
      by (apply String.eqb_neq; congruence).
    assert (Hset2 : forall v w,
      dict_get failing (dict_set f v (dict_set f w res1)) = Some (Failed e)
      /\ forall other, other <> failing ->
           dict_get other (dict_set f v (dict_set f w res1))
           = dict_get other (dict_set f v (dict_set f w res2))).
    { intros v w. split.
      - rewrite !dict_get_set, Hff. exact Hget.
      - intros other Ho. rewrite !dict_get_set, Hothers by exact Ho.
        reflexivity. }
    destruct (process_file _ _ _ (full_path f)) as [result|e1];
      [destruct (get result "keyphrases" (JList [])) as [keyphrases|e2];
       [destruct (get result "type" (JStr "unknown")) as [doc_type|e3];
        [destruct (iterate keyphrases) as [new_phrases|e4];
         [destruct (hashable doc_type);
          [destruct (py_len keyphrases) as [n|e5]|]|]|]|]|];
      unfold agree_except; cbn [all_keyphrases results_by_file stats_by_type];
      repeat split;
      try (destruct (Hset (Failed e1)) as [H1 H2]; rewrite ?H1, ?Hff; auto; fail);
      try (destruct (Hset (Failed e2)) as [H1 H2]; rewrite ?H1, ?Hff; auto; fail);
      try (destruct (Hset (Failed e3)) as [H1 H2]; rewrite ?H1, ?Hff; auto; fail);
      try (destruct (Hset (Failed e4)) as [H1 H2]; rewrite ?H1, ?Hff; auto; fail);
      try (destruct (Hset (Extracted doc_type keyphrases)) as [H1 H2];
           rewrite ?H1, ?Hff; auto; fail);
      try (apply Hset2; fail).
Qed.

Lemma fold_agree files :
  forall st1 st2,
  agree_except failing e st1 st2 ->
  agree_except failing e
    (fold_left (process_document repr load_json call_llm) files st1)
    (fold_left (process_document repr load_json call_llm) files st2).
Proof.
  induction files as [|f files IH]; intros st1 st2 H; simpl; [exact H|].
  apply IH. now apply process_document_agree.
Qed.

Lemma run_batch_agree files_before files_after :
  agree_except failing e
    (run_batch repr load_json call_llm
       (files_before ++ failing :: files_after))
    (run_batch repr load_json call_llm (files_before ++ files_after)).
Proof.
  unfold run_batch. rewrite !fold_left_app. simpl.
  apply fold_agree, failing_document_agree.
Qed.

End Isolation.

(** X23. A failure raised by [process_file] for one document is caught in
    the iteration of that document and recorded under its path; the
    collected keyphrases, the statistics and the recorded result of every
    other document are what they are in the batch without that
    document. *)
Theorem batch_failure_isolated
    (repr : json -> string) (load_json call_llm : string -> result json)
    (files_before files_after : list string) (failing : string) (e : exn) :
  process_file repr load_json call_llm (full_path failing) = Raise e ->
  let with_failure :=
    run_batch repr load_json call_llm
      (files_before ++ failing :: files_after) in
  let without :=
    run_batch repr load_json call_llm (files_before ++ files_after) in
  dict_get failing (results_by_file with_failure) = Some (Failed e)
  /\ all_keyphrases with_failure = all_keyphrases without
  /\ stats_by_type with_failure = stats_by_type without
  /\ forall other, other <> failing ->
       dict_get other (results_by_file with_failure)
       = dict_get other (results_by_file without).
Proof.
  intros Hfail with_failure without.
  destruct (run_batch_agree repr load_json call_llm failing e Hfail
              files_before files_after) as (H1 & H2 & H3 & H4).
  auto.
Qed.

Lemma batch_failure_isolated_witness :
  (let with_failure :=
     run_batch no_repr Example.load_json Example.call_llm
       (["guides/a.json"] ++ "guides/broken.json" :: ["guides/c.json"]) in
   let without :=
     run_batch no_repr Example.load_json Example.call_llm
       (["guides/a.json"] ++ ["guides/c.json"]) in
   dict_get "guides/broken.json" (results_by_file with_failure)
     = Some (Failed JSONDecodeError)
   /\ all_keyphrases with_failure = all_keyphrases without
   /\ stats_by_type with_failure = stats_by_type without
   /\ forall other, other <> "guides/broken.json" ->
        dict_get other (results_by_file with_failure)
        = dict_get other (results_by_file without))
  /\ results_by_file
       (run_batch no_repr Example.load_json Example.call_llm
          ["guides/a.json"; "guides/broken.json"; "guides/c.json"])
     = [("guides/a.json",
         Extracted (JStr "guide") (JList [JStr "webhook listener"]));
        ("guides/broken.json", Failed JSONDecodeError);
        ("guides/c.json",
         Extracted (JStr "guide") (JList [JStr "webhook listener"]))].
Proof.
  split.
  - apply (batch_failure_isolated no_repr Example.load_json Example.call_llm
             ["guides/a.json"] ["guides/c.json"] "guides/broken.json"
             JSONDecodeError).
    vm_compute. reflexivity.
  - vm_compute. reflexivity.
Defined.

(** Outside the scope of the isolation theorem: an answer of the extractor
    whose type is not hashable raises only at the update of the
    statistics, after its keyphrases have been collected; the file is
    recorded as failed and its keyphrases stay in [all_keyphrases]. *)
Lemma unhashable_type_keeps_keyphrases :
  let answer := JDict [("type", JList []);
                       ("keyphrases", JList [JStr "webhook listener"])] in
  let st := run_batch no_repr Example.load_json (fun _ => Ok answer)
              ["guides/a.json"] in
  results_by_file st = [("guides/a.json", Failed TypeError)]
  /\ all_keyphrases st = [JStr "webhook listener"].
Proof. split; vm_compute; reflexivity. Qed.


(** * Further properties of the code *)

Import Notions.

(** ** The classifier *)

Lemma detect_document_type_outcomes (content : json) (filepath : string) :
  (exists doc_type,
     detect_document_type content filepath = Ok doc_type
     /\ In doc_type document_types)
  \/ (detect_document_type content filepath = Raise TypeError
      /\ not_iterable content = true).
Proof.
  unfold detect_document_type, document_types.
  repeat match goal with
         | |- context [if ?b then Ok _ else _] =>
             destruct b; [left; eexists; split; [reflexivity|simpl; tauto]|]
         end.
  destruct content; simpl; auto;
    repeat match goal with
           | |- context [if ?b then _ else _] => destruct b; simpl
           end;
    left; eexists; (split; [reflexivity|simpl; tauto]).
Qed.

(** X1. [detect_document_type] returns one of the four document types. Its
    only failure is a [TypeError], and only for a document that is [None],
    a boolean or a number (when the path gives no hint and the membership
    test on the document is reached). *)
Theorem detect_document_type_cases (content : json) (filepath : string) :
  (exists doc_type,
     detect_document_type content filepath = Ok doc_type
     /\ In doc_type document_types)
  \/ (detect_document_type content filepath = Raise TypeError
      /\ not_iterable content = true).
Proof. exact (detect_document_type_outcomes content filepath). Qed.

(** X3. The quota table has an entry for every type the classifier returns, so
    the default of [QUOTAS.get] in [process_file] is never used. *)
Theorem quota_defined_for_detected_type (content : json) (filepath : string) :
  match detect_document_type content filepath with
  | Ok doc_type =>
      exists quota,
        dict_get doc_type QUOTAS = Some quota
        /\ dict_get_default doc_type product_overview_quota QUOTAS = quota
  | Raise _ => True
  end.
Proof.
  destruct (detect_document_type_outcomes content filepath)
    as [(doc_type & -> & Hin)|[-> _]]; [|exact I].
  unfold dict_get_default.
  simpl in Hin.
  destruct Hin as [<-|[<-|[<-|[<-|[]]]]]; eexists; split; reflexivity.
Qed.

(** ** The text normalizer *)

Lemma rstrip_no_trailing_space text : no_trailing_space (rstrip text).
Proof.
  unfold no_trailing_space.
  induction text as [|c rest IH]; [exact I|].
  simpl. destruct (rstrip rest) as [|d r] eqn:Hr.
  - destruct (is_space c) eqn:Hc; simpl; auto.
  - exact IH.
Qed.

Lemma rstrip_fixed text : no_trailing_space text -> rstrip text = text.
Proof.
  unfold no_trailing_space.
  induction text as [|c rest IH]; [reflexivity|].
  destruct rest as [|d r].
  - simpl. now intros ->.
  - intros H. change (last_char (String c (String d r)))
      with (last_char (String d r)) in H.
    specialize (IH H).
    change (rstrip (String c (String d r)))
      with (match rstrip (String d r) with
            | EmptyString =>
                if is_space c then EmptyString else String c EmptyString
            | r' => String c r'
            end).
    now rewrite IH.
Qed.

Lemma strip_html_tags_in_normal_form (text : string) :
  normalized_text (strip_html_tags text).
Proof.
  rewrite strip_html_tags_unfold. unfold normalized_text, strip.
  repeat split.
  - apply rstrip_tagfree, lstrip_tagfree, sub_spaces_tagfree,
      sub_tags_tagfree.
  - apply rstrip_collapsed, lstrip_collapsed, sub_spaces_collapsed.
  - apply rstrip_no_leading_space, lstrip_no_leading_space.
  - apply rstrip_no_trailing_space.
Qed.

(** X4. What [strip_html_tags] returns is in normal form: it has no complete
    tag left, its only white space is single spaces, and it neither starts
    nor ends with one. *)
Theorem strip_html_tags_normalized (text : string) :
  normalized_text (strip_html_tags text).
Proof. exact (strip_html_tags_in_normal_form text). Qed.

(** X5. [strip_html_tags] leaves a text unchanged exactly when the text is in
    normal form. *)
Theorem strip_html_tags_fixed_points (text : string) :
  strip_html_tags text = text <-> normalized_text text.
Proof.
  split.
  - intros H. rewrite <- H. apply strip_html_tags_in_normal_form.
  - intros (Htag & Hcol & Hlead & Htrail).
    rewrite strip_html_tags_unfold.
    rewrite (sub_tags_fixed _ Htag), (sub_spaces_fixed _ _ Hcol).
    unfold strip. rewrite (lstrip_fixed _ Hlead). now apply rstrip_fixed.
Qed.

Lemma sub_tags_length text :
  forall b, (String.length (sub_tags b text) <= String.length text)%nat.
Proof.
  induction text as [|c rest IH]; intros b; simpl; [lia|].
  destruct b; [specialize (IH (negb (Ascii.eqb c ">"))); lia|].
  destruct (opens_tag c rest); simpl.
  - specialize (IH true). lia.
  - specialize (IH false). lia.
Qed.

Lemma sub_spaces_length text :
  forall b, (String.length (sub_spaces b text) <= String.length text)%nat.
Proof.
  induction text as [|c rest IH]; intros b; simpl; [lia|].
  destruct (is_space c); [destruct b|]; simpl;
    try (specialize (IH true); lia).
  specialize (IH false). lia.
Qed.

Lemma lstrip_length text :
  (String.length (lstrip text) <= String.length text)%nat.
Proof.
  induction text as [|c rest IH]; simpl; [lia|].
  destruct (is_space c); simpl; lia.
Qed.

Lemma rstrip_length text :
  (String.length (rstrip text) <= String.length text)%nat.
Proof.
  induction text as [|c rest IH]; simpl; [lia|].
  destruct (rstrip rest); [destruct (is_space c)|]; simpl in *; lia.
Qed.

(** X6. [strip_html_tags] never makes a text longer: a tag has at least three
    characters and becomes one space. *)
Theorem strip_html_tags_length (text : string) :
  len (strip_html_tags text) <= len text.
Proof.
  rewrite strip_html_tags_unfold. unfold len, strip.
  pose proof (rstrip_length (lstrip (sub_spaces false (sub_tags false text)))).
  pose proof (lstrip_length (sub_spaces false (sub_tags false text))).
  pose proof (sub_spaces_length (sub_tags false text) false).
  pose proof (sub_tags_length text false).
  lia.
Qed.

(** ** The phrase reconciler *)

Lemma set_mem_false x seen : ~ In x seen -> set_mem x seen = false.
Proof.
  intros Hnot. unfold set_mem.
  destruct (existsb (String.eqb x) seen) eqn:Hex; [|reflexivity].
  apply existsb_exists in Hex as (y & Hy & Heq).
  apply String.eqb_eq in Heq. subst y. contradiction.
Qed.

Lemma emit_step all_phrases target_count phrase c rest result seen :
  ~ In phrase seen ->
  emit all_phrases target_count ((phrase, c) :: rest) result seen
  = if Z.of_nat (List.length
                   (result ++ [representative all_phrases phrase])%list)
       >=? target_count
    then (result ++ [representative all_phrases phrase])%list
    else emit all_phrases target_count rest
           (result ++ [representative all_phrases phrase])%list
           (phrase :: seen).
Proof.
  intros Hnot. simpl. rewrite (set_mem_false _ _ Hnot).
  unfold representative. now destruct (find_original phrase all_phrases).
Qed.

Lemma emit_takes_first all_phrases target_count sorted_phrases :
  forall result seen,
  NoDup (map fst sorted_phrases) ->
  (forall k, In k (map fst sorted_phrases) -> ~ In k seen) ->
  Z.of_nat (List.length result) < Z.max 1 target_count ->
  emit all_phrases target_count sorted_phrases result seen
  = (result
     ++ firstn (Z.to_nat (Z.max 1 target_count) - List.length result)
          (map (fun item => representative all_phrases (fst item))
             sorted_phrases))%list.
Proof.
  induction sorted_phrases as [|[phrase c] rest IH];
    intros result seen Hnd Hseen Hlen.
  - simpl. now rewrite firstn_nil, app_nil_r.
  - simpl map in Hnd, Hseen. inversion_clear Hnd as [|? ? Hnotin Hnd'].
    rewrite emit_step by (apply Hseen; now left).
    set (x := representative all_phrases phrase).
    assert (Hlen' : List.length (result ++ [x])%list
                    = S (List.length result))
      by (rewrite length_app; simpl; lia).
    assert (Hsub : (Z.to_nat (Z.max 1 target_count) - List.length result
                    = S (Z.to_nat (Z.max 1 target_count)
                         - S (List.length result)))%nat) by lia.
    cbn [map fst]. fold x. rewrite Hsub. cbn [firstn].
    destruct (Z.geb_spec (Z.of_nat (List.length (result ++ [x])%list))
                target_count) as [Hge|Hlt].
    + replace (Z.to_nat (Z.max 1 target_count) - S (List.length result))%nat
        with 0%nat by lia.
      reflexivity.
    + rewrite IH.
      * rewrite Hlen', <- app_assoc. reflexivity.
      * exact Hnd'.
      * intros k Hk [Heq|Hin]; [subst k; contradiction|].
        apply (Hseen k); [now right|exact Hin].
      * lia.
Qed.

Lemma ranking_keys_NoDup all_phrases : NoDup (map fst (ranking all_phrases)).
Proof.
  unfold ranking.
  eapply Permutation_NoDup;
    [apply Permutation_map, Permutation_sym, sorted_by_rank_perm|].
  apply group_phrases_NoDup.
Qed.

Lemma deduplicate_is_top_of_ranking
    (all_phrases : list string) (target_count : Z) :
  deduplicate_keyphrases all_phrases target_count
  = firstn (Z.to_nat (Z.max 1 target_count))
      (map (fun item => representative all_phrases (fst item))
         (ranking all_phrases)).
Proof.
  unfold deduplicate_keyphrases.
  rewrite emit_takes_first.
  - simpl. now rewrite Nat.sub_0_r.
  - apply ranking_keys_NoDup.
  - intros k _ [].
  - simpl. lia.
Qed.

(** X11. The result of [deduplicate_keyphrases] is the beginning of the ranking,
    each entry replaced by its representative: the first [target_count]
    entries, and the first entry when [target_count] is below 1. *)
Theorem deduplicate_takes_top_of_ranking
    (all_phrases : list string) (target_count : Z) :
  deduplicate_keyphrases all_phrases target_count
  = firstn (Z.to_nat (Z.max 1 target_count))
      (map (fun item => representative all_phrases (fst item))
         (ranking all_phrases)).
Proof. exact (deduplicate_is_top_of_ranking all_phrases target_count). Qed.

(** X12. For a target of at least 1 the result has exactly [target_count]
    entries, or all the entries of the accumulator when there are fewer. *)
Theorem deduplicate_length_exact
    (all_phrases : list string) (target_count : Z) :
  1 <= target_count ->
  List.length (deduplicate_keyphrases all_phrases target_count)
  = Nat.min (Z.to_nat target_count)
      (List.length (group_phrases (Counter all_phrases))).
Proof.
  intros Hn. rewrite deduplicate_is_top_of_ranking.
  rewrite length_firstn, length_map. unfold ranking.
  rewrite (Permutation_length (sorted_by_rank_perm _)).
  now rewrite Z.max_r by lia.
Qed.

Lemma deduplicate_length_exact_witness :
  List.length
    (deduplicate_keyphrases ["Invoice"; "invoice"; "Invoices"; "Refund"] 1)
  = Nat.min (Z.to_nat 1)
      (List.length
         (group_phrases
            (Counter ["Invoice"; "invoice"; "Invoices"; "Refund"]))).
Proof.
  apply (deduplicate_length_exact
           ["Invoice"; "invoice"; "Invoices"; "Refund"] 1).
  lia.
Defined.

(** *** No occurrence is lost *)

Lemma total_dict_set k v (d : dict Z) :
  total_count (dict_set k v d) = total_count d - dict_get_default k 0 d + v.
Proof.
  unfold dict_get_default.
  induction d as [|[k0 v0] d IH]; simpl; [lia|].
  destruct (String.eqb k k0); simpl; lia.
Qed.

Lemma total_dict_pop k (d : dict Z) :
  total_count (dict_pop k d) = total_count d - dict_get_default k 0 d.
Proof.
  unfold dict_get_default.
  induction d as [|[k0 v0] d IH]; simpl; [lia|].
  destruct (String.eqb k k0); simpl; lia.
Qed.

Lemma dict_get_pop_other {V : Type} k s (d : dict V) :
  k <> s -> dict_get k (dict_pop s d) = dict_get k d.
Proof.
  intros Hne. induction d as [|[k0 v0] d IH]; simpl; [reflexivity|].
  destruct (String.eqb_spec s k0) as [->|Hs]; simpl.
  - destruct (String.eqb_spec k k0); [contradiction|reflexivity].
  - now rewrite IH.
Qed.

Lemma drop_last_length k :
  k <> "" -> S (String.length (drop_last k)) = String.length k.
Proof.
  induction k as [|c k IH]; [congruence|].
  intros _. destruct k as [|d k]; [reflexivity|].
  specialize (IH ltac:(discriminate)).
  change (drop_last (String c (String d k)))
    with (String c (drop_last (String d k))).
  change (String.length (String c (drop_last (String d k))))
    with (S (String.length (drop_last (String d k)))).
  rewrite IH. reflexivity.
Qed.

Lemma endswith_drop_last_neq c k :
  endswith_char c k = true -> k <> drop_last k.
Proof.
  intros Hends Heq.
  assert (Hne : k <> "") by (intros ->; discriminate).
  pose proof (drop_last_length k Hne) as Hlen.
  rewrite <- Heq in Hlen. lia.
Qed.

Lemma total_counter_add phrase c :
  total_count (counter_add phrase c) = total_count c + 1.
Proof.
  induction c as [|[q n] c IH]; simpl; [lia|].
  destruct (String.eqb phrase q); simpl; lia.
Qed.

Lemma total_Counter all_phrases :
  total_count (Counter all_phrases) = Z.of_nat (List.length all_phrases).
Proof.
  unfold Counter.
  assert (Hgen : forall c,
    total_count (fold_left (fun c phrase => counter_add phrase c)
                   all_phrases c)
    = total_count c + Z.of_nat (List.length all_phrases)).
  { induction all_phrases as [|p ps IH]; intros c; simpl List.length;
      [simpl; lia|].
    simpl fold_left. rewrite IH, total_counter_add. lia. }
  rewrite Hgen. simpl. lia.
Qed.

Lemma group_step_total d item :
  total_count (group_step d item) = total_count d + snd item.
Proof.
  destruct item as [phrase count]. unfold group_step. simpl snd.
  destruct (endswith_char "s" (norm phrase)) eqn:Hends; simpl andb.
  - destruct (dict_mem (drop_last (norm phrase)) d).
    + rewrite total_dict_set, total_dict_pop.
      unfold dict_get_default at 2.
      rewrite dict_get_pop_other
        by (eapply endswith_drop_last_neq; eassumption).
      fold (dict_get_default (norm phrase) 0 d). lia.
    + destruct (dict_mem (norm phrase ++ "s") d);
        rewrite total_dict_set; lia.
  - destruct (dict_mem (norm phrase ++ "s") d);
      rewrite total_dict_set; lia.
Qed.

Lemma group_phrases_total phrase_counts :
  total_count (group_phrases phrase_counts) = total_count phrase_counts.
Proof.
  unfold group_phrases.
  assert (Hgen : forall d,
    total_count (fold_left group_step phrase_counts d)
    = total_count d + total_count phrase_counts).
  { induction phrase_counts as [|item pc IH]; intros d; simpl; [lia|].
    rewrite IH, group_step_total. lia. }
  rewrite Hgen. simpl. lia.
Qed.

(** X15. Merging loses and invents nothing: the counts of the accumulator add up
    to the number of input phrases. *)
Theorem merged_counts_add_up (all_phrases : list string) :
  total_count (group_phrases (Counter all_phrases))
  = Z.of_nat (List.length all_phrases).
Proof. now rewrite group_phrases_total, total_Counter. Qed.

(** *** The order of the result *)

Lemma dict_get_NoDup {V : Type} k (v : V) d :
  NoDup (dict_keys d) -> In (k, v) d -> dict_get k d = Some v.
Proof.
  induction d as [|[k0 v0] d IH]; simpl; intros Hnd Hin; [contradiction|].
  inversion_clear Hnd as [|? ? Hnotin Hnd'].
  destruct Hin as [[= -> ->]|Hin].
  - now rewrite String.eqb_refl.
  - destruct (String.eqb_spec k k0) as [->|_]; [|auto].
    exfalso. apply Hnotin. unfold dict_keys.
    change k0 with (fst (k0, v)). now apply in_map.
Qed.

Lemma representative_count all_phrases item :
  In item (ranking all_phrases) ->
  merged_count all_phrases (representative all_phrases (fst item))
  = snd item.
Proof.
  intros Hin.
  assert (Hacc : In item (group_phrases (Counter all_phrases)))
    by (eapply Permutation_in; [apply sorted_by_rank_perm|exact Hin]).
  destruct item as [k c]. simpl.
  destruct (find_original_found k all_phrases) as [orig Horig].
  { apply accumulator_keys_from. unfold dict_keys.
    change k with (fst (k, c)). now apply in_map. }
  unfold merged_count, representative. rewrite Horig.
  apply find_original_some in Horig as [_ ->].
  unfold dict_get_default.
  now rewrite (dict_get_NoDup k c _ (group_phrases_NoDup _) Hacc).
Qed.

Lemma StronglySorted_map_In {A B : Type} (R : A -> A -> Prop)
    (R' : B -> B -> Prop) (f : A -> B) (l : list A) :
  (forall a b, In a l -> In b l -> R a b -> R' (f a) (f b)) ->
  StronglySorted R l -> StronglySorted R' (map f l).
Proof.
  induction l as [|x l IH]; intros Hf Hs; simpl; [constructor|].
  inversion_clear Hs as [|? ? Hs' Hall].
  constructor.
  - apply IH; [|exact Hs']. intros a b Ha Hb. apply Hf; now right.
  - rewrite Forall_forall in *. intros y Hy.
    apply in_map_iff in Hy as (b & <- & Hb).
    apply Hf; [now left|now right|auto].
Qed.

Lemma StronglySorted_firstn {A : Type} (R : A -> A -> Prop) n :
  forall l, StronglySorted R l -> StronglySorted R (firstn n l).
Proof.
  induction n as [|n IH]; intros l Hs; [constructor|].
  destruct l as [|x l]; [constructor|].
  inversion_clear Hs as [|? ? Hs' Hall]. simpl.
  constructor; [now apply IH|].
  rewrite Forall_forall in *. intros y Hy. apply Hall.
  rewrite <- (firstn_skipn n l). apply in_or_app. now left.
Qed.

(** X13. The result is ordered by frequency: no entry has a larger merged count
    than an entry before it. *)
Theorem deduplicate_ranked_by_count
    (all_phrases : list string) (target_count : Z) :
  StronglySorted
    (fun x y => merged_count all_phrases y <= merged_count all_phrases x)
    (deduplicate_keyphrases all_phrases target_count).
Proof.
  rewrite deduplicate_is_top_of_ranking.
  apply StronglySorted_firstn.
  apply (StronglySorted_map_In rank_le); [|apply sorted_by_rank_sorted].
  intros a b Ha Hb Hab.
  rewrite (representative_count _ a Ha), (representative_count _ b Hb).
  apply rank_le_iff in Hab as [->|[Hlt|[Heq _]]]; lia.
Qed.

(** *** No phrase is dropped *)

Lemma endswith_drop_last k :
  endswith_char "s" k = true -> drop_last k ++ "s" = k.
Proof.
  induction k as [|c k IH]; [discriminate|].
  destruct k as [|d k].
  - simpl. intros H. apply Ascii.eqb_eq in H. now subst c.
  - intros H.
    change (endswith_char "s" (String c (String d k)))
      with (endswith_char "s" (String d k)) in H.
    change (drop_last (String c (String d k)))
      with (String c (drop_last (String d k))).
    change (String c (drop_last (String d k)) ++ "s")
      with (String c (drop_last (String d k) ++ "s")).
    now rewrite (IH H).
Qed.

Lemma counter_add_keeps phrase c k :
  k = phrase \/ In k (dict_keys c) -> In k (dict_keys (counter_add phrase c)).
Proof.
  unfold dict_keys. induction c as [|[q n] c IH]; simpl.
  - intros [->|[]]. now left.
  - destruct (String.eqb_spec phrase q) as [->|Hne]; simpl;
      intros [->|[->|H]]; auto.
Qed.

Lemma Counter_has_every_phrase all_phrases phrase :
  In phrase all_phrases -> In phrase (dict_keys (Counter all_phrases)).
Proof.
  unfold Counter.
  assert (Hgen : forall c,
    In phrase all_phrases \/ In phrase (dict_keys c) ->
    In phrase (dict_keys (fold_left (fun c p => counter_add p c)
                            all_phrases c))).
  { induction all_phrases as [|p ps IH]; simpl; intros c H; [tauto|].
    apply IH. destruct H as [[->|H]|H]; auto;
      right; apply counter_add_keeps; auto. }
  intros H. apply Hgen. now left.
Qed.

(** A key that is in the accumulator before a step of the grouping loop has
    a plural of itself in the accumulator after it. *)
Lemma group_step_keeps d item k :
  In k (dict_keys d) ->
  exists k', plural_of k k' /\ In k' (dict_keys (group_step d item)).
Proof.
  intros Hk. destruct item as [phrase count]. unfold group_step.
  destruct (endswith_char "s" (norm phrase)) eqn:Hends; simpl andb.
  - destruct (dict_mem (drop_last (norm phrase)) d).
    + destruct (String.eqb_spec k (drop_last (norm phrase))) as [->|Hne].
      * exists (norm phrase). split.
        -- rewrite <- (endswith_drop_last _ Hends) at 2.
           apply plural_more, plural_same.
        -- apply keys_dict_set. now left.
      * exists k. split; [apply plural_same|].
        apply keys_dict_set. right.
        apply dict_mem_keys. apply dict_mem_keys in Hk.
        unfold dict_mem in *. now rewrite dict_get_pop_other.
    + exists k. split; [apply plural_same|].
      destruct (dict_mem (norm phrase ++ "s") d);
        apply keys_dict_set; now right.
  - exists k. split; [apply plural_same|].
    destruct (dict_mem (norm phrase ++ "s") d);
      apply keys_dict_set; now right.
Qed.

Lemma group_step_adds d phrase count :
  exists k', plural_of (norm phrase) k'
             /\ In k' (dict_keys (group_step d (phrase, count))).
Proof.
  unfold group_step.
  destruct (endswith_char "s" (norm phrase)
            && dict_mem (drop_last (norm phrase)) d).
  - exists (norm phrase). split; [apply plural_same|].
    apply keys_dict_set. now left.
  - destruct (dict_mem (norm phrase ++ "s") d) eqn:Hmem.
    + exists (norm phrase ++ "s"). split; [apply plural_more, plural_same|].
      apply keys_dict_set. now left.
    + exists (norm phrase). split; [apply plural_same|].
      apply keys_dict_set. now left.
Qed.

Lemma plural_of_trans a b c : plural_of a b -> plural_of b c -> plural_of a c.
Proof.
  intros Hab Hbc. induction Hbc; [exact Hab|]. now apply plural_more.
Qed.

Lemma group_phrases_keeps phrase_counts :
  forall d,
  (forall k, In k (dict_keys d) ->
     exists k', plural_of k k'
                /\ In k' (dict_keys (fold_left group_step phrase_counts d)))
  /\ (forall item, In item phrase_counts ->
        exists k', plural_of (norm (fst item)) k'
                   /\ In k' (dict_keys
                               (fold_left group_step phrase_counts d))).
Proof.
  induction phrase_counts as [|item pc IH]; intros d; simpl.
  - split; [|intros ? []]. intros k Hk. exists k. split; [constructor|auto].
  - destruct (IH (group_step d item)) as [IHd IHpc]. split.
    + intros k Hk.
      destruct (group_step_keeps d item k Hk) as (k1 & H1 & Hin1).
      destruct (IHd k1 Hin1) as (k2 & H2 & Hin2).
      exists k2. split; [eapply plural_of_trans; eassumption|exact Hin2].
    + intros item' [<-|Hin]; [|now apply IHpc].
      destruct item as [phrase count].
      destruct (group_step_adds d phrase count) as (k1 & H1 & Hin1).
      destruct (IHd k1 Hin1) as (k2 & H2 & Hin2).
      exists k2. split; [eapply plural_of_trans; eassumption|exact Hin2].
Qed.

(** X16. Every input phrase is represented in the accumulator: by its
    normalized form, or by that form followed by one or more "s". *)
Theorem every_phrase_has_a_key (all_phrases : list string) (phrase : string) :
  In phrase all_phrases ->
  exists key,
    plural_of (norm phrase) key
    /\ In key (dict_keys (group_phrases (Counter all_phrases))).
Proof.
  intros Hin. apply Counter_has_every_phrase in Hin.
  unfold dict_keys in Hin. apply in_map_iff in Hin as ([p c] & Hp & Hin).
  simpl in Hp. subst p.
  destruct (group_phrases_keeps (Counter all_phrases) []) as [_ H].
  apply (H (phrase, c) Hin).
Qed.

Lemma every_phrase_has_a_key_witness :
  exists key,
    plural_of (norm "Invoice") key
    /\ In key (dict_keys
                 (group_phrases
                    (Counter ["Invoice"; "invoice"; "Invoices"; "Refund"]))).
Proof.
  apply (every_phrase_has_a_key
           ["Invoice"; "invoice"; "Invoices"; "Refund"] "Invoice").
  simpl. auto.
Defined.

(** ** The summarizer *)

Lemma extends_bind {A : Type} base (m : result A)
    (k : A -> result (list string)) :
  (forall a, extends_to base (k a)) -> extends_to base (bind m k).
Proof. intros Hk. destruct m; simpl; [apply Hk|exact I]. Qed.

Lemma extends_bind_parts base (m : result (list string))
    (k : list string -> result (list string)) :
  extends_to base m ->
  (forall parts, (exists more, parts = (base ++ more)%list) ->
                 extends_to base (k parts)) ->
  extends_to base (bind m k).
Proof. intros Hm Hk. destruct m; simpl; [now apply Hk|exact I]. Qed.

Lemma extends_for_each {A : Type} base
    (body : list string -> A -> result (list string)) (items : list A) :
  (forall parts x, (exists more, parts = (base ++ more)%list) ->
                   extends_to base (body parts x)) ->
  forall parts, (exists more, parts = (base ++ more)%list) ->
  extends_to base (for_each body items parts).
Proof.
  intros Hbody. induction items as [|x items IH]; intros parts Hparts.
  - exact Hparts.
  - simpl. apply extends_bind_parts; [now apply Hbody|exact IH].
Qed.

(** The end of a computation: parts built from [base] by appending. *)
Ltac extends_done :=
  unfold extends_to, append;
  repeat match goal with
         | |- context [if ?b then _ else _] => destruct b
         end;
  rewrite <- ?app_assoc; eexists; reflexivity.

Ltac extends_step :=
  cbv zeta;
  lazymatch goal with
  | |- extends_to _ (Ok _) => extends_done
  | |- extends_to _ (Raise _) => exact I
  | |- extends_to _ (bind ?m _) =>
      lazymatch type of m with
      | result (list string) =>
          apply extends_bind_parts; [|intros ? [? ->]]
      | _ => apply extends_bind; intros
      end
  | |- extends_to _ (if ?b then _ else _) => destruct b
  | |- extends_to _ (match ?x with _ => _ end) => destruct x
  end.

Section AppendOnly.

Variable repr : json -> string.
Variable base : list string.

Lemma intro_section_parts_extends api_ref parts :
  (exists more, parts = (base ++ more)%list) ->
  extends_to base (intro_section_parts api_ref parts).
Proof. intros [more ->]. unfold intro_section_parts. repeat extends_step. Qed.

Lemma scope_step_extends parts subsection :
  (exists more, parts = (base ++ more)%list) ->
  extends_to base (scope_step parts subsection).
Proof. intros [more ->]. unfold scope_step. repeat extends_step. Qed.

Lemma scopes_parts_extends api_ref parts :
  (exists more, parts = (base ++ more)%list) ->
  extends_to base (scopes_parts api_ref parts).
Proof.
  intros Hparts. unfold scopes_parts. do 2 extends_step.
  extends_step; [|destruct Hparts as [more ->]; extends_done].
  do 3 extends_step.
  apply extends_for_each; [|exact Hparts].
  intros. now apply scope_step_extends.
Qed.

Lemma use_case_step_extends parts item :
  (exists more, parts = (base ++ more)%list) ->
  extends_to base (use_case_step repr parts item).
Proof. intros [more ->]. unfold use_case_step. repeat extends_step. Qed.

Lemma use_cases_parts_extends api_ref parts :
  (exists more, parts = (base ++ more)%list) ->
  extends_to base (use_cases_parts repr api_ref parts).
Proof.
  intros [more ->]. unfold use_cases_parts. extends_step.
  extends_step; [|extends_done].
  do 2 extends_step.
  apply extends_for_each.
  - intros. now apply use_case_step_extends.
  - unfold append. rewrite <- app_assoc. eauto.
Qed.

Lemma api_reference_parts_extends content parts :
  (exists more, parts = (base ++ more)%list) ->
  extends_to base (api_reference_parts repr content parts).
Proof.
  intros [more ->]. unfold api_reference_parts. do 2 extends_step.
  apply extends_bind_parts; [repeat extends_step|].
  intros parts1 H1.
  apply extends_bind_parts; [now apply intro_section_parts_extends|].
  intros parts2 H2.
  apply extends_bind_parts; [now apply scopes_parts_extends|].
  intros parts3 H3. now apply use_cases_parts_extends.
Qed.

Lemma header_section_parts_extends guide parts :
  (exists more, parts = (base ++ more)%list) ->
  extends_to base (header_section_parts repr guide parts).
Proof.
  intros [more ->]. unfold header_section_parts. repeat extends_step.
Qed.

Lemma body_item_step_extends parts item :
  (exists more, parts = (base ++ more)%list) ->
  extends_to base (body_item_step repr parts item).
Proof.
  intros [more ->]. unfold body_item_step.
  destruct (is_dict item); repeat extends_step.
Qed.

Lemma content_section_step_extends guide parts key :
  (exists more, parts = (base ++ more)%list) ->
  extends_to base (content_section_step repr guide parts key).
Proof.
  intros [more ->]. unfold content_section_step.
  extends_step; [|extends_done].
  do 2 extends_step.
  apply extends_bind_parts; [repeat extends_step|].
  intros parts1 H1. extends_step.
  extends_step; [|destruct H1 as [? ->]; extends_done].
  do 2 extends_step.
  apply extends_for_each; [|exact H1].
  intros. now apply body_item_step_extends.
Qed.

Lemma guide_parts_extends content parts :
  (exists more, parts = (base ++ more)%list) ->
  extends_to base (guide_parts repr content parts).
Proof.
  intros Hparts. unfold guide_parts. extends_step.
  apply extends_bind_parts; [now apply header_section_parts_extends|].
  intros parts1 H1. apply extends_bind. intros guide_keys.
  apply extends_for_each; [|exact H1].
  intros. now apply content_section_step_extends.
Qed.

End AppendOnly.

(** X8. The summarizer only ever appends to its parts: the text it assembles
    starts with the document name, the detected type and an empty line,
    whatever the document holds. *)
Theorem summary_starts_with_header (repr : json -> string)
    (filepath : string) (content : json) (full_summary : string) :
  assemble_summary repr filepath content = Ok full_summary ->
  exists doc_type more,
    detect_document_type content filepath = Ok doc_type
    /\ full_summary
       = String.concat nl (header_parts filepath doc_type ++ more)%list.
Proof.
  unfold assemble_summary.
  destruct (detect_document_type content filepath) as [doc_type|e];
    [|discriminate].
  cbn [bind]. cbv zeta. fold (header_parts filepath doc_type).
  set (base := header_parts filepath doc_type).
  destruct (if String.eqb doc_type "api_reference"
            then contains_key "APIReference" content else Ok false)
    as [is_api|e]; [|discriminate].
  cbn [bind].
  match goal with
  | |- bind ?m _ = _ -> _ => assert (Hext : extends_to base m)
  end.
  { destruct is_api.
    - apply api_reference_parts_extends. exists []. now rewrite app_nil_r.
    - apply extends_bind. intros is_guide. destruct is_guide.
      + apply guide_parts_extends. exists []. now rewrite app_nil_r.
      + exists []. now rewrite app_nil_r. }
  match goal with
  | |- bind ?m _ = _ -> _ => destruct m as [parts|e]; [|discriminate]
  end.
  destruct Hext as [more ->]. cbn [bind]. intros [= <-].
  exists doc_type, more. auto.
Qed.

Lemma summary_starts_with_header_witness :
  exists doc_type more,
    detect_document_type
      (JDict [("gatewayGuides",
               JDict [("headerSection", JDict [("header", JStr "Webhooks")])])])
      "keywords/guides/webhooks.json" = Ok doc_type
    /\ String.concat nl
         ["Document: webhooks.json"; "Type: guide"; ""; "Guide: Webhooks"]
       = String.concat nl
           (header_parts "keywords/guides/webhooks.json" doc_type ++ more)%list.
Proof.
  apply (summary_starts_with_header no_repr "keywords/guides/webhooks.json"
           (JDict [("gatewayGuides",
                    JDict [("headerSection",
                            JDict [("header", JStr "Webhooks")])])])).
  vm_compute. reflexivity.
Defined.

(** X9. A document without the top-level section of its type gets the header
    and nothing else: a solution or a product overview always, an API
    reference without [APIReference], a guide without [gatewayGuides]. No
    other section is looked at. *)
Theorem summary_is_header_only (repr : json -> string)
    (filepath : string) (content : json) (doc_type : string) :
  detect_document_type content filepath = Ok doc_type ->
  (doc_type = "api_reference" ->
   contains_key "APIReference" content = Ok false) ->
  (doc_type = "guide" -> contains_key "gatewayGuides" content = Ok false) ->
  assemble_summary repr filepath content
  = Ok (String.concat nl (header_parts filepath doc_type)).
Proof.
  intros Hdetect Hapi Hguide. unfold assemble_summary.
  rewrite Hdetect. cbn [bind]. cbv zeta.
  destruct (String.eqb_spec doc_type "api_reference") as [Ha|Ha].
  - rewrite (Hapi Ha). cbn [bind].
    destruct (String.eqb_spec doc_type "guide") as [Hg|Hg]; [congruence|].
    reflexivity.
  - cbn [bind].
    destruct (String.eqb_spec doc_type "guide") as [Hg|Hg].
    + rewrite (Hguide Hg). reflexivity.
    + reflexivity.
Qed.

Lemma summary_is_header_only_witness :
  assemble_summary no_repr "keywords/api-reference/ach.json"
    (JDict [("gatewayGuides", JDict [("headerSection", JDict [])])])
  = Ok (String.concat nl
          (header_parts "keywords/api-reference/ach.json" "api_reference")).
Proof.
  apply (summary_is_header_only no_repr "keywords/api-reference/ach.json"
           (JDict [("gatewayGuides", JDict [("headerSection", JDict [])])])
           "api_reference").
  - reflexivity.
  - intros _. reflexivity.
  - intros H. discriminate H.
Defined.

(** ** The loop of [main] *)

Section BatchFacts.

Variable repr : json -> string.
Variable load_json : string -> result json.
Variable call_llm : string -> result json.

(** What an iteration does to the recorded results: it sets the entry of
    its file, to a value that the state does not influence. *)
Lemma process_document_entry st st0 relative_path k :
  dict_get k (results_by_file
                (process_document repr load_json call_llm st relative_path))
  = if String.eqb k relative_path
    then dict_get relative_path
           (results_by_file
              (process_document repr load_json call_llm st0 relative_path))
    else dict_get k (results_by_file st).
Proof.
  unfold process_document, try_body.
  destruct (process_file repr load_json call_llm (full_path relative_path))
    as [result|e1];
    [destruct (get result "keyphrases" (JList [])) as [keyphrases|e2];
     [destruct (get result "type" (JStr "unknown")) as [doc_type|e3];
      [destruct (iterate keyphrases) as [new_phrases|e4];
       [destruct (hashable doc_type);
        [destruct (py_len keyphrases) as [n|e5]|]|]|]|]|];
    cbn [results_by_file]; rewrite ?dict_get_set;
    destruct (String.eqb_spec k relative_path) as [->|Hne];
    rewrite ?String.eqb_refl; reflexivity.
Qed.

Lemma run_batch_entry files :
  forall st k,
  dict_get k (results_by_file
                (fold_left (process_document repr load_json call_llm)
                   files st))
  = if existsb (String.eqb k) files
    then dict_get k
           (results_by_file
              (process_document repr load_json call_llm initial_state k))
    else dict_get k (results_by_file st).
Proof.
  induction files as [|f files IH]; intros st k; simpl; [reflexivity|].
  rewrite IH.
  destruct (existsb (String.eqb k) files); [now rewrite orb_true_r|].
  rewrite orb_false_r.
  rewrite (process_document_entry st initial_state).
  destruct (String.eqb_spec k f) as [->|]; reflexivity.
Qed.

(** X17. What the batch records for a file is what it records when the file is
    processed alone: neither the other files nor the position matter. *)
Theorem batch_entry_independent (files : list string) (file : string) :
  In file files ->
  dict_get file
    (results_by_file (run_batch repr load_json call_llm files))
  = dict_get file
      (results_by_file (run_batch repr load_json call_llm [file])).
Proof.
  intros Hin. unfold run_batch. rewrite !run_batch_entry.
  assert (Hex : existsb (String.eqb file) files = true).
  { apply existsb_exists. exists file. split; [exact Hin|].
    apply String.eqb_refl. }
  rewrite Hex. simpl. now rewrite String.eqb_refl.
Qed.

Lemma process_document_records st relative_path :
  dict_mem relative_path
    (results_by_file
       (process_document repr load_json call_llm st relative_path)) = true.
Proof.
  unfold dict_mem, process_document, try_body.
  destruct (process_file repr load_json call_llm (full_path relative_path))
    as [result|e1];
    [destruct (get result "keyphrases" (JList [])) as [keyphrases|e2];
     [destruct (get result "type" (JStr "unknown")) as [doc_type|e3];
      [destruct (iterate keyphrases) as [new_phrases|e4];
       [destruct (hashable doc_type);
        [destruct (py_len keyphrases) as [n|e5]|]|]|]|]|];
    cbn [results_by_file]; rewrite ?dict_get_set, ?String.eqb_refl;
    reflexivity.
Qed.

(** X18. The report accounts for every file and for nothing else: a path has an
    entry in [results_by_file], a result or an error, exactly when it is one
    of the files of the batch. *)
Theorem batch_records_every_file (files : list string) (file : string) :
  dict_mem file (results_by_file (run_batch repr load_json call_llm files))
  = true
  <-> In file files.
Proof.
  unfold run_batch, dict_mem. rewrite run_batch_entry.
  destruct (existsb (String.eqb file) files) eqn:Hex.
  - pose proof (process_document_records initial_state file) as Hrec.
    unfold dict_mem in Hrec.
    apply existsb_exists in Hex as (f & Hf & Heq).
    apply String.eqb_eq in Heq. subst f. tauto.
  - simpl. split; [discriminate|]. intros Hin. exfalso.
    assert (Hc : existsb (String.eqb file) files = true).
    { apply existsb_exists. exists file. split; [exact Hin|].
      apply String.eqb_refl. }
    congruence.
Qed.

End BatchFacts.

Lemma batch_entry_independent_witness :
  dict_get "guides/broken.json"
    (results_by_file
       (run_batch no_repr Example.load_json Example.call_llm
          ["guides/a.json"; "guides/broken.json"; "guides/c.json"]))
  = dict_get "guides/broken.json"
      (results_by_file
         (run_batch no_repr Example.load_json Example.call_llm
            ["guides/broken.json"])).
Proof.
  apply (batch_entry_independent no_repr Example.load_json Example.call_llm
           ["guides/a.json"; "guides/broken.json"; "guides/c.json"]
           "guides/broken.json").
  simpl. auto.
Defined.

(** *** The statistics *)

Lemma chars_length s : List.length (chars s) = String.length s.
Proof. induction s as [|c s IH]; simpl; [reflexivity|now rewrite IH]. Qed.

Lemma py_len_iterate keyphrases n new_phrases :
  py_len keyphrases = Ok n -> iterate keyphrases = Ok new_phrases ->
  n = Z.of_nat (List.length new_phrases).
Proof.
  destruct keyphrases; simpl; try discriminate; intros [= <-] [= <-].
  - unfold len. now rewrite chars_length.
  - reflexivity.
  - now rewrite length_map.
Qed.

Lemma stats_set_total key n stats :
  stats_total (stats_set key (stats_get key 0 stats + n) stats)
  = stats_total stats + n.
Proof.
  induction stats as [|[k m] stats IH]; simpl; [lia|].
  destruct (key_eqb key k); simpl; lia.
Qed.

Section Statistics.

Variable repr : json -> string.
Variable load_json : string -> result json.
Variable call_llm : string -> result json.

Lemma process_document_uncounted st relative_path :
  uncounted st
  <= uncounted (process_document repr load_json call_llm st relative_path).
Proof.
  unfold uncounted, process_document, try_body.
  destruct (process_file repr load_json call_llm (full_path relative_path))
    as [result|e1];
    [destruct (get result "keyphrases" (JList [])) as [keyphrases|e2];
     [destruct (get result "type" (JStr "unknown")) as [doc_type|e3];
      [destruct (iterate keyphrases) as [new_phrases|e4] eqn:Hiter;
       [destruct (hashable doc_type);
        [destruct (py_len keyphrases) as [n|e5] eqn:Hlen|]|]|]|]|];
    cbn [all_keyphrases stats_by_type]; rewrite ?length_app; try lia.
  rewrite stats_set_total, (py_len_iterate _ _ _ Hlen Hiter). lia.
Qed.

(** X19. The statistics by type never count more keyphrases than the loop has
    collected. *)
Theorem stats_at_most_collected (files : list string) :
  stats_total (stats_by_type (run_batch repr load_json call_llm files))
  <= Z.of_nat
       (List.length
          (all_keyphrases (run_batch repr load_json call_llm files))).
Proof.
  unfold run_batch.
  assert (Hgen : forall st,
    uncounted st
    <= uncounted (fold_left (process_document repr load_json call_llm)
                    files st)).
  { induction files as [|f files IH]; intros st; simpl; [lia|].
    etransitivity; [apply process_document_uncounted|apply IH]. }
  specialize (Hgen initial_state). unfold uncounted in Hgen.
  simpl in Hgen. lia.
Qed.

(** Every type that the extractor returns can be hashed. *)
Hypothesis types_hashable :
  forall prompt result doc_type,
  call_llm prompt = Ok result ->
  get result "type" (JStr "unknown") = Ok doc_type ->
  hashable doc_type = true.

Lemma process_file_from_extractor filepath result :
  process_file repr load_json call_llm filepath = Ok result ->
  exists prompt, call_llm prompt = Ok result.
Proof.
  unfold process_file.
  destruct (load_json filepath) as [content|]; [|discriminate].
  cbn [bind].
  destruct (prepare_document_summary repr filepath content 15000)
    as [summary|]; [|discriminate].
  cbn [bind].
  destruct (detect_document_type content filepath) as [doc_type|];
    [|discriminate].
  cbn [bind]. eauto.
Qed.

Lemma process_document_counted st relative_path :
  uncounted (process_document repr load_json call_llm st relative_path)
  = uncounted st.
Proof.
  unfold uncounted, process_document, try_body.
  destruct (process_file repr load_json call_llm (full_path relative_path))
    as [result|e1] eqn:Hfile; [|reflexivity].
  destruct (process_file_from_extractor _ _ Hfile) as [prompt Hllm].
  destruct (get result "keyphrases" (JList [])) as [keyphrases|e2];
    [|reflexivity].
  destruct (get result "type" (JStr "unknown")) as [doc_type|e3] eqn:Htype;
    [|reflexivity].
  rewrite (types_hashable _ _ _ Hllm Htype).
  destruct (iterate keyphrases) as [new_phrases|e4] eqn:Hiter;
    [|reflexivity].
  assert (Hlen : py_len keyphrases = Ok (Z.of_nat (List.length new_phrases))).
  { destruct keyphrases; simpl in *; try discriminate;
      injection Hiter as <-; unfold len;
      rewrite ?chars_length, ?length_map; reflexivity. }
  rewrite Hlen. cbn [all_keyphrases stats_by_type].
  rewrite stats_set_total, length_app. lia.
Qed.

(** X20. When every type that the extractor returns can be hashed, the
    statistics by type add up to the number of keyphrases collected. *)
Theorem stats_add_up (files : list string) :
  stats_total (stats_by_type (run_batch repr load_json call_llm files))
  = Z.of_nat
      (List.length
         (all_keyphrases (run_batch repr load_json call_llm files))).
Proof.
  unfold run_batch.
  assert (Hgen : forall st,
    uncounted (fold_left (process_document repr load_json call_llm)
                 files st) = uncounted st).
  { induction files as [|f files IH]; intros st; simpl; [reflexivity|].
    now rewrite IH, process_document_counted. }
  specialize (Hgen initial_state). unfold uncounted in Hgen.
  simpl in Hgen. lia.
Qed.

End Statistics.

Lemma stats_add_up_witness :
  stats_total
    (stats_by_type
       (run_batch no_repr Example.load_json Example.call_llm
          ["guides/a.json"; "guides/broken.json"; "guides/c.json"]))
  = Z.of_nat
      (List.length
         (all_keyphrases
            (run_batch no_repr Example.load_json Example.call_llm
               ["guides/a.json"; "guides/broken.json"; "guides/c.json"]))).
Proof.
  apply (stats_add_up no_repr Example.load_json Example.call_llm).
  intros prompt result doc_type Hllm Htype.
  injection Hllm as <-. injection Htype as <-. reflexivity.
Defined.

(** *** After the loop *)

Lemma strings_of_all_strings l ss :
  strings_of l = Ok ss -> forall v, In v l -> is_str v = true.
Proof.
  revert ss. induction l as [|x l IH]; intros ss H v Hin; [contradiction|].
  destruct x; try discriminate. simpl in H.
  destruct (strings_of l) as [ss'|]; [|discriminate].
  destruct Hin as [<-|Hin]; [reflexivity|eauto].
Qed.

Lemma deduplicate_collected_raises all_phrases target_count v :
  In v all_phrases -> is_str v = false ->
  deduplicate_collected all_phrases target_count = Raise TypeError
  \/ deduplicate_collected all_phrases target_count = Raise AttributeError.
Proof.
  intros Hin Hv. unfold deduplicate_collected.
  destruct (forallb hashable all_phrases); [|now left].
  destruct (strings_of all_phrases) as [ss|e] eqn:Hs; [|now right].
  rewrite (strings_of_all_strings _ _ Hs v Hin) in Hv. discriminate.
Qed.

Section AfterTheLoop.

Variable repr : json -> string.
Variable load_json : string -> result json.
Variable call_llm : string -> result json.

Lemma process_document_keeps_phrases st relative_path v :
  In v (all_keyphrases st) ->
  In v (all_keyphrases
          (process_document repr load_json call_llm st relative_path)).
Proof.
  intros Hin. unfold process_document, try_body.
  destruct (process_file repr load_json call_llm (full_path relative_path))
    as [result|e1];
    [destruct (get result "keyphrases" (JList [])) as [keyphrases|e2];
     [destruct (get result "type" (JStr "unknown")) as [doc_type|e3];
      [destruct (iterate keyphrases) as [new_phrases|e4];
       [destruct (hashable doc_type);
        [destruct (py_len keyphrases) as [n|e5]|]|]|]|]|];
    cbn [all_keyphrases]; auto; apply in_or_app; now left.
Qed.

Lemma process_document_collects st relative_path result keyphrases v :
  process_file repr load_json call_llm (full_path relative_path) = Ok result ->
  get result "keyphrases" (JList []) = Ok (JList keyphrases) ->
  In v keyphrases ->
  In v (all_keyphrases
          (process_document repr load_json call_llm st relative_path)).
Proof.
  intros Hfile Hget Hin. unfold process_document, try_body.
  rewrite Hfile, Hget.
  destruct result; try discriminate. cbn [get iterate].
  destruct (hashable _); cbn [py_len all_keyphrases];
    apply in_or_app; now right.
Qed.

Lemma run_batch_collects files :
  forall st file result keyphrases v,
  In file files ->
  process_file repr load_json call_llm (full_path file) = Ok result ->
  get result "keyphrases" (JList []) = Ok (JList keyphrases) ->
  In v keyphrases ->
  In v (all_keyphrases
          (fold_left (process_document repr load_json call_llm) files st)).
Proof.
  assert (Hkeep : forall files st v,
    In v (all_keyphrases st) ->
    In v (all_keyphrases
            (fold_left (process_document repr load_json call_llm)
               files st))).
  { intros fs. induction fs as [|f fs IH]; intros st v Hin; simpl; [auto|].
    apply IH. now apply process_document_keeps_phrases. }
  induction files as [|f files IH];
    intros st file result keyphrases v Hin Hfile Hget Hv; [contradiction|].
  simpl. destruct Hin as [->|Hin].
  - apply Hkeep. eapply process_document_collects; eassumption.
  - eapply IH; eassumption.
Qed.

(** X21. One answer of the extractor with a keyphrase that is not a string ends
    the run: the answer passes the [try] of its document, and the
    deduplication after the loop, which no [try] encloses, raises. *)
Theorem non_string_keyphrase_ends_run
    (files : list string) (file : string) (result : json)
    (keyphrases : list json) (v : json) :
  In file files ->
  process_file repr load_json call_llm (full_path file) = Ok result ->
  get result "keyphrases" (JList []) = Ok (JList keyphrases) ->
  In v keyphrases -> is_str v = false ->
  final_keyphrases (run_batch repr load_json call_llm files) = Raise TypeError
  \/ final_keyphrases (run_batch repr load_json call_llm files)
     = Raise AttributeError.
Proof.
  intros Hin Hfile Hget Hv Hstr. unfold final_keyphrases.
  apply (deduplicate_collected_raises _ _ v); [|exact Hstr].
  unfold run_batch. eapply run_batch_collects; eassumption.
Qed.

(** X22. When the run gets through, the final list has at most
    [TARGET_KEYPHRASE_COUNT] = 300 entries, whatever was collected. *)
Theorem final_keyphrases_at_most_target
    (files : list string) (final : list string) :
  final_keyphrases (run_batch repr load_json call_llm files) = Ok final ->
  (List.length final <= 300)%nat.
Proof.
  unfold final_keyphrases, deduplicate_collected.
  destruct (forallb hashable _); [|discriminate].
  destruct (strings_of _) as [phrases|]; [|discriminate].
  intros [= <-].
  pose proof (deduplicate_length_bound phrases TARGET_KEYPHRASE_COUNT) as H.
  unfold TARGET_KEYPHRASE_COUNT in *. lia.
Qed.

End AfterTheLoop.

Lemma non_string_keyphrase_ends_run_witness :
  let call_llm := fun _ : string =>
    Ok (JDict [("type", JStr "guide");
               ("keyphrases", JList [JStr "webhook listener"; JInt 5])]) in
  final_keyphrases
    (run_batch no_repr Example.load_json call_llm
       ["guides/a.json"; "guides/c.json"]) = Raise TypeError
  \/ final_keyphrases
       (run_batch no_repr Example.load_json call_llm
          ["guides/a.json"; "guides/c.json"]) = Raise AttributeError.
Proof.
  apply (non_string_keyphrase_ends_run no_repr Example.load_json
           (fun _ => Ok (JDict [("type", JStr "guide");
                                ("keyphrases",
                                 JList [JStr "webhook listener"; JInt 5])]))
           ["guides/a.json"; "guides/c.json"] "guides/c.json"
           (JDict [("type", JStr "guide");
                   ("keyphrases", JList [JStr "webhook listener"; JInt 5])])
           [JStr "webhook listener"; JInt 5] (JInt 5)).
  - simpl. auto.
  - vm_compute. reflexivity.
  - reflexivity.
  - simpl. auto.
  - reflexivity.
Defined.

Lemma final_keyphrases_at_most_target_witness :
  (List.length ["webhook listener"] <= 300)%nat.
Proof.
  apply (final_keyphrases_at_most_target no_repr Example.load_json
           Example.call_llm
           ["guides/a.json"; "guides/broken.json"; "guides/c.json"]
           ["webhook listener"]).
  vm_compute. reflexivity.
Defined.

(** ** The classifier and the path *)

(** X2. When the path holds one of the folder names, the path alone decides:
    the type is returned without a look at the document, so it is the same
    for every document and no document makes the classifier raise. *)
Theorem path_hint_decides (content content' : json) (filepath : string) :
  existsb (fun hint => contains hint (lower filepath)) path_hints = true ->
  detect_document_type content filepath
  = detect_document_type content' filepath
  /\ exists doc_type, detect_document_type content filepath = Ok doc_type.
Proof.
  unfold path_hints, detect_document_type. cbn [existsb].
  repeat match goal with
         | |- context [contains ?h (lower filepath)] =>
             destruct (contains h (lower filepath)); cbn [orb];
             try (intros _; split; [reflexivity|eauto]; fail)
         end.
  discriminate.
Qed.

Lemma path_hint_decides_witness :
  detect_document_type (JDict [("APIReference", JDict [])])
    "keywords/Guides/webhooks.json"
  = detect_document_type JNull "keywords/Guides/webhooks.json"
  /\ exists doc_type,
       detect_document_type (JDict [("APIReference", JDict [])])
         "keywords/Guides/webhooks.json" = Ok doc_type.
Proof.
  apply (path_hint_decides (JDict [("APIReference", JDict [])]) JNull
           "keywords/Guides/webhooks.json").
  vm_compute. reflexivity.
Defined.

(** ** The size of a guide section in the summary *)

Lemma adds_bind {A : Type} n parts (m : result A)
    (k : A -> result (list string)) :
  (forall a, adds_at_most n parts (k a)) -> adds_at_most n parts (bind m k).
Proof. intros Hk. destruct m; simpl; [apply Hk|exact I]. Qed.

Lemma adds_bind_parts n1 n2 parts (m : result (list string))
    (k : list string -> result (list string)) :
  adds_at_most n1 parts m ->
  (forall parts', adds_at_most n2 parts' (k parts')) ->
  adds_at_most (n1 + n2) parts (bind m k).
Proof.
  intros Hm Hk. destruct m as [parts'|]; simpl; [|exact I].
  specialize (Hk parts'). unfold adds_at_most in *.
  destruct (k parts'); [simpl in Hm; lia|exact I].
Qed.

Lemma adds_for_each {A : Type} n
    (body : list string -> A -> result (list string)) (items : list A) :
  (forall parts x, adds_at_most n parts (body parts x)) ->
  forall parts,
  adds_at_most (n * List.length items) parts (for_each body items parts).
Proof.
  intros Hbody. induction items as [|x items IH]; intros parts.
  - simpl. lia.
  - cbn [for_each List.length].
    replace (n * S (List.length items))%nat
      with (n + n * List.length items)%nat by lia.
    apply adds_bind_parts; [apply Hbody|apply IH].
Qed.

Lemma adds_weaken n m parts c :
  (n <= m)%nat -> adds_at_most n parts c -> adds_at_most m parts c.
Proof. intros Hle. destruct c; simpl; [lia|auto]. Qed.

Lemma length_append_part {A : Type} (parts : list A) line :
  List.length (append parts line) = S (List.length parts).
Proof. unfold append. rewrite length_app. simpl. lia. Qed.

Section SectionSize.

Variable repr : json -> string.

Lemma body_item_step_adds parts item :
  adds_at_most 2 parts (body_item_step repr parts item).
Proof.
  unfold body_item_step. destruct (is_dict item); [|simpl; lia].
  apply adds_bind. intros has_header.
  apply (adds_bind_parts 1 1).
  - destruct has_header; [|simpl; lia].
    apply adds_bind. intros header. simpl.
    rewrite length_append_part. lia.
  - intros parts'. apply adds_bind. intros has_body.
    destruct has_body; [|simpl; lia].
    do 2 (apply adds_bind; intros). simpl.
    rewrite length_append_part. lia.
Qed.

Lemma iterate_first_length n body items :
  iterate_first n body = Ok items -> (List.length items <= n)%nat.
Proof.
  destruct body; simpl; try discriminate; intros [= <-].
  - rewrite chars_length. apply length_take.
  - apply firstn_le_length.
Qed.

(** X10. A content section of a guide adds at most seven lines to the summary:
    its header and, for no more than three items of its body, a sub-header
    and an excerpt. *)
Theorem content_section_adds_at_most_seven_lines
    (guide : json) (parts : list string) (key : string)
    (parts' : list string) :
  content_section_step repr guide parts key = Ok parts' ->
  (List.length parts' <= List.length parts + 7)%nat.
Proof.
  intros H.
  assert (Hadds : adds_at_most 7 parts
                    (content_section_step repr guide parts key)).
  { unfold content_section_step.
    destruct (String.prefix "contentSection" key); [|simpl; lia].
    do 2 (apply adds_bind; intros).
    apply (adds_bind_parts 1 6).
    - match goal with
      | |- context [if ?b then _ else _] => destruct b; [|simpl; lia]
      end.
      apply adds_bind. intros header. simpl.
      rewrite length_append_part. lia.
    - intros parts1. apply adds_bind. intros has_body.
      destruct has_body; [|simpl; lia].
      apply adds_bind. intros body.
      destruct (iterate_first 3 body) as [items|] eqn:Hitems; [|exact I].
      cbn [bind]. apply iterate_first_length in Hitems.
      apply (adds_weaken (2 * List.length items)); [lia|].
      apply adds_for_each. apply body_item_step_adds. }
  rewrite H in Hadds. exact Hadds.
Qed.

End SectionSize.

Lemma content_section_adds_at_most_seven_lines_witness :
  (List.length ["Document: webhooks.json"; nl ++ "Section: Events";
                "- Delivery"; "  Retries"]
   <= List.length ["Document: webhooks.json"] + 7)%nat.
Proof.
  apply (content_section_adds_at_most_seven_lines no_repr
           (JDict [("contentSection1",
                    JDict [("sectionHeader", JStr "Events");
                           ("contentBody",
                            JList [JDict [("subSectionHeader",
                                           JStr "Delivery");
                                          ("bodyText",
                                           JStr "<p>Retries</p>")]])])])
           ["Document: webhooks.json"] "contentSection1").
  vm_compute. reflexivity.
Defined.

(** ** The walker and the repeated priority key *)

(** X7. ["bodyText"] stands twice in the priority list, and the loop over the
    list does not skip the repetition: the text under that key comes twice
    in what [extract_text_content] returns. *)
Theorem body_text_is_collected_twice
    (d : list (string * json)) (s : string) (max_depth : Z) :
  1 <= max_depth ->
  dict_get "bodyText" d = Some (JStr s) ->
  strip_html_tags s <> "" ->
  exists before between after,
    extract_text_content (JDict d) max_depth
    = String.concat " "
        (before ++ [strip_html_tags s] ++ between
         ++ [strip_html_tags s] ++ after)%list.
Proof.
  intros Hdepth Hget Hne. unfold extract_text_content.
  destruct (Z.to_nat max_depth) as [|depth] eqn:Hd; [lia|].
  destruct (extract_text_fragments (S depth) (JDict d)) as [-> _].
  assert (Hpiece : priority_piece (priority_fragments depth) d "bodyText"
                   = [strip_html_tags s]).
  { unfold priority_piece, nonempty. rewrite Hget. simpl.
    destruct (String.eqb_spec (strip_html_tags s) ""); [contradiction|].
    reflexivity. }
  cbn [priority_fragments]. unfold priority_keys. cbn [flat_map].
  rewrite Hpiece.
  set (piece := priority_piece (priority_fragments depth) d).
  exists (piece "header" ++ piece "pageTitleSuffix"
          ++ piece "introductionHeader" ++ piece "introductionBodyText"
          ++ piece "useCaseHeader" ++ piece "useCaseBodyText"
          ++ piece "useCaseEndpoint" ++ piece "useCaseMethod"
          ++ piece "sectionHeader")%list,
         (piece "subSectionHeader" ++ piece "parameter")%list,
         (piece "details"
          ++ flat_map (other_piece (priority_fragments depth)) d)%list.
  rewrite app_nil_r. f_equal. rewrite <- !app_assoc. reflexivity.
Qed.

Lemma body_text_is_collected_twice_witness :
  exists before between after,
    extract_text_content (JDict [("bodyText", JStr "<p>Refunds</p>")]) 10
    = String.concat " "
        (before ++ [strip_html_tags "<p>Refunds</p>"] ++ between
         ++ [strip_html_tags "<p>Refunds</p>"] ++ after)%list.
Proof.
  apply (body_text_is_collected_twice
           [("bodyText", JStr "<p>Refunds</p>")] "<p>Refunds</p>" 10).
  - lia.
  - reflexivity.
  - vm_compute. discriminate.
Defined.

(** ** The forms of the result *)

(** X14. No two entries of the result have the same lowercased and trimmed
    form, for every input and every target count. *)
Theorem deduplicate_no_repeated_form
    (all_phrases : list string) (target_count : Z) :
  NoDup (map norm (deduplicate_keyphrases all_phrases target_count)).
Proof. exact (deduplicate_distinct_forms all_phrases target_count). Qed.
